(** * merge_estimates.py: consolidation of estimating spreadsheets

    A shallow embedding of [src/merge_estimates.py] and the properties of
    its merge pipeline: category detection from the file name, cleaning of
    a loaded frame, the overwrite/append choice, removal of duplicates and
    the writing of the master file.

    Conventions of the model.
    - A Python [str] is a list of characters.  A character is a code
      point below 256: the 8-bit [ascii] of the standard library, read as
      Latin-1.  On these the text functions ([lower], [strip], the class
      [\s]) are Python's; a capital beyond ASCII is lowered and the
      no-break space is white space.
    - A pandas frame is the ordered list of its labelled columns; labels
      are texts.  Labels may repeat after they have been normalised, and
      the model follows pandas there (selecting a repeated label gives a
      frame, on which [.str] raises [AttributeError]).
    - A cell that holds nothing is missing, and stays so, as in pandas 3:
      [.astype(str)] leaves it missing (earlier versions made it the text
      [nan]), a method of [.str] gives a missing value for every cell that
      is not a text, [float] of it is NaN, and [drop_duplicates] takes all
      missing values for one value.
    - A [float] is a binary64 value [m * 2^e]; [float()] rounds the decimal
      it reads to the nearest such value, ties to even.
    - [print] appends to a log of events; files are fields of a [world].
      The master file is given by a table: before a run the one
      [pd.read_excel] returns for it, after a run the one [to_excel] was
      given.  The two are not the same table: a description that looks
      like a number comes back as a number, an empty one comes back
      missing.  The workbook is taken to be read and written without
      error: a master file that [pd.read_excel] cannot read, or a text
      that [to_excel] refuses, is not described. *)

From Stdlib Require Import ZArith Ascii String DecimalString DecimalPos.
From stdpp Require Import base decidable option list strings sets gmap.

Local Open Scope Z_scope.

(** ** Text *)

Abbreviation str := (list ascii).

(** A literal of the source, [lit "abc"] for ["abc"]; the characters of a
    literal are ASCII. *)
Definition lit (s : string) : str := list_ascii_of_string s.

Module Text.

Definition code (c : ascii) : N := N_of_ascii c.

(** The capitals: A..Z and, in the upper half, the letters from 0xC0 to
    0xDE, which the multiplication sign 0xD7 is not one of. *)
Definition is_upper (c : ascii) : bool :=
  (((65 <=? code c) && (code c <=? 90))
   || ((192 <=? code c) && (code c <=? 222) && negb (code c =? 215)))%N.

(** [str.lower] on one character: the small letter of a capital is 32
    places after it. *)
Definition lower_char (c : ascii) : ascii :=
  if is_upper c then ascii_of_N (code c + 32) else c.

(** [str.lower()] *)
Definition lower (s : str) : str := lower_char <$> s.

(** [str.isspace] on one character, also the class [\s] of [re]:
    tab, newline, vertical tab, form feed, carriage return, the four
    separators 0x1c..0x1f, the space, the next-line control 0x85 and the
    no-break space 0xa0. *)
Definition is_space (c : ascii) : bool :=
  (((9 <=? code c) && (code c <=? 13))
   || ((28 <=? code c) && (code c <=? 31))
   || (code c =? 32) || (code c =? 133) || (code c =? 160))%N.

Fixpoint lstrip (s : str) : str :=
  match s with
  | c :: s' => if is_space c then lstrip s' else s
  | [] => []
  end.

Definition rstrip (s : str) : str := rev (lstrip (rev s)).

(** [str.strip()] *)
Definition strip (s : str) : str := rstrip (lstrip s).

(** [re.sub(r"\s+", " ", s)]: every maximal run of white space becomes
    one space.  [in_run] tells that the previous character was white
    space, whose replacement has been emitted already. *)
Fixpoint collapse_from (in_run : bool) (s : str) : str :=
  match s with
  | [] => []
  | c :: s' =>
      if is_space c
      then (if in_run then collapse_from true s'
            else " "%char :: collapse_from true s')
      else c :: collapse_from false s'
  end.

Definition collapse_spaces (s : str) : str := collapse_from false s.

Definition is_digit (c : ascii) : bool :=
  ((48 <=? code c) && (code c <=? 57))%N.

Definition is_dot (c : ascii) : bool := (code c =? 46)%N.

(** [s.startswith(p)] *)
Fixpoint startswith (p s : str) : bool :=
  match p, s with
  | [], _ => true
  | _ :: _, [] => false
  | a :: p', b :: s' => bool_decide (a = b) && startswith p' s'
  end.

(** [p in s] on two texts: [p] occurs in [s] as a contiguous block. *)
Fixpoint contains (p s : str) : bool :=
  startswith p s ||
  match s with
  | [] => false
  | _ :: s' => contains p s'
  end.

End Text.

(** ** Category detection (detect_category) *)

(** [categories.json] as [json.load] gives it: a dict, whose iteration
    order is the order of the keys in the file. *)
Abbreviation CategoryMap := (list (str * list str)).

Definition Unknown : str := lit "Unknown".

(** [any(keyword.lower() in name for keyword in keywords)] *)
Definition any_keyword_in (name : str) (keywords : list str) : bool :=
  existsb (fun keyword => Text.contains (Text.lower keyword) name) keywords.

(** The [for category, keywords in categories.items()] loop. *)
Fixpoint detect_category_loop (name : str) (categories : CategoryMap) : str :=
  match categories with
  | [] => Unknown
  | (category, keywords) :: rest =>
      if any_keyword_in name keywords then category
      else detect_category_loop name rest
  end.

Definition detect_category (filename : str) (categories : CategoryMap) : str :=
  let name := Text.lower filename in
  detect_category_loop name categories.

(** ** Floats *)

(** A binary64 value: [Finite m e] is [m * 2^e]. *)
Inductive float64 :=
| Finite (m e : Z)
| PInf
| NInf
| NaN.

Definition nonneg (f : float64) : Prop :=
  match f with
  | Finite m _ => 0 <= m
  | PInf => True
  | NInf | NaN => False
  end.

Module Float.

(** [num / den] rounded to the nearest integer, ties to even. *)
Definition round_half_even (num den : Z) : Z :=
  let q := num / den in
  let r := num mod den in
  if 2 * r <? den then q
  else if den <? 2 * r then q + 1
  else if Z.even q then q else q + 1.

(** [n / (d * 2^e)] as a fraction of integers. *)
Definition scaled (n d e : Z) : Z * Z :=
  if 0 <=? e then (n, d * 2 ^ e) else (n * 2 ^ (- e), d).

(** The binary64 nearest to [n / d], for [0 <= n] and [0 < d]: 53 bits
    of mantissa, exponent at least -1074 (subnormals), overflow to
    infinity. *)
Definition of_ratio (n d : Z) : float64 :=
  if n =? 0 then Finite 0 0
  else
    let e1 := Z.log2 n - Z.log2 d - 53 in
    let '(a1, b1) := scaled n d e1 in
    let e2 := if 2 ^ 53 <=? a1 / b1 then e1 + 1 else e1 in
    let e := Z.max e2 (-1074) in
    let '(a, b) := scaled n d e in
    let m := round_half_even a b in
    let '(m', e') := if m =? 2 ^ 53 then (2 ^ 52, e + 1) else (m, e) in
    if 971 <? e' then PInf else Finite m' e'.

Definition digit_value (c : ascii) : Z := Z.of_N (Text.code c) - 48.

(** The number a text of decimal digits denotes. *)
Definition digits_value (ds : str) : Z :=
  fold_left (fun acc c => 10 * acc + digit_value c) ds 0.

(** The text before the first dot, and the text after it if there is
    one. *)
Fixpoint split_dot (s : str) : str * option str :=
  match s with
  | [] => ([], None)
  | c :: s' =>
      if Text.is_dot c then ([], Some s')
      else let '(ip, fp) := split_dot s' in (c :: ip, fp)
  end.

(** [float(s)] for a text [s] over the digits and the dot, the only
    texts the cleaning of a cost leaves: [None] is [ValueError].
    Accepted are [digits], [digits.], [digits.digits] and [.digits]. *)
Definition of_text (s : str) : option float64 :=
  match split_dot s with
  | (ip, None) =>
      if forallb Text.is_digit ip && negb (bool_decide (ip = []))
      then Some (of_ratio (digits_value ip) 1)
      else None
  | (ip, Some fp) =>
      if forallb Text.is_digit ip && forallb Text.is_digit fp
         && negb (bool_decide (ip = []) && bool_decide (fp = []))
      then Some (of_ratio (digits_value (ip ++ fp)) (10 ^ Z.of_nat (length fp)))
      else None
  end.

End Float.

(** ** Frames *)

(** What a reader puts in a cell.  A float cell is given by the text
    [str()] shows for it. *)
Inductive raw :=
| RStr (s : str)
| RInt (z : Z)
| RFloat (shown : str)
| RMissing.

(** A value of a column of texts: a text, a number, which such a column
    holds when it was read back from a sheet and is given by the text
    [repr] shows for it, or the missing value. *)
Inductive value :=
| VText (s : str)
| VNumber (shown : str)
| VMissing.

#[global] Instance value_eq_dec : EqDecision value := ltac:(solve_decision).

Definition value_code (v : value) : str + (str + unit) :=
  match v with
  | VText s => inl s
  | VNumber shown => inr (inl shown)
  | VMissing => inr (inr tt)
  end.

Definition value_of_code (c : str + (str + unit)) : value :=
  match c with
  | inl s => VText s
  | inr (inl shown) => VNumber shown
  | inr (inr _) => VMissing
  end.

#[global] Instance value_countable : Countable value :=
  inj_countable' value_code value_of_code
    ltac:(intros v; destruct v; reflexivity).

(** A method [f] of the [.str] accessor on one value: it works on a text,
    and gives the missing value for a number and for a missing value. *)
Definition str_method (f : str -> str) (v : value) : value :=
  match v with
  | VText s => VText (f s)
  | VNumber _ | VMissing => VMissing
  end.

(** A cell of a frame on which [clean_dataframe] has worked: untouched,
    a text (or the missing value) it stored, or a float it stored. *)
Inductive cell :=
| Raw (r : raw)
| Txt (v : value)
| Num (f : float64).

Abbreviation frame A := (list (str * list A)).

(** [.astype(str)] on a cell as loaded: the text of the cell, [None] for
    a missing cell, which stays missing. *)
Definition astype_str (r : raw) : option str :=
  match r with
  | RStr s => Some s
  | RInt z => Some (lit (NilZero.string_of_int (Z.to_int z)))
  | RFloat shown => Some shown
  | RMissing => None
  end.

Definition labels {A} (df : frame A) : list str := fst <$> df.

(** [df.columns = f(df.columns)] *)
Definition rename_labels {A} (f : str -> str) (df : frame A) : frame A :=
  (fun c : str * list A => (f c.1, c.2)) <$> df.

(** [df[l]]: the columns labelled [l], one for a series, more for a
    frame. *)
Definition select {A} (l : str) (df : frame A) : list (list A) :=
  snd <$> filter (fun c : str * list A => c.1 = l) df.

(** [df[l] = v]: every column labelled [l] is replaced, a new column is
    added last when there is none. *)
Definition set_column {A} (l : str) (v : list A) (df : frame A) : frame A :=
  if bool_decide (l ∈ labels df)
  then (fun c : str * list A => if bool_decide (c.1 = l) then (l, v) else c) <$> df
  else df ++ [(l, v)].

Definition as_cells (df : frame raw) : frame cell :=
  (fun c : str * list raw => (c.1, Raw <$> c.2)) <$> df.

(** A row of the cleaned table, columns in the order
    [category, description, unit cost, source file].  The two columns
    the duplicates are found on hold values; a cost is a float, NaN when
    missing; a source file is the name of a file. *)
Record row := Row {
  category : value;
  description : value;
  unit_cost : float64;
  source_file : str
}.

Abbreviation table := (list row).

Inductive exn :=
| AttributeError
| ValueError
| ReadError
| JSONDecodeError
| ResizeError.

Inductive result (T : Type) :=
| Return (x : T)
| Raise (e : exn).
Arguments Return {T} x.
Arguments Raise {T} e.

(** What the program prints. *)
Inductive event :=
| SkippingMissingColumns (source : str)
| Processed (source : str) (items : nat) (cat : str)
| ConfigNotFound
| NoInputFilesFound
| NoValidDataFound
| AppendBanner
| OverwriteBanner
| Summary (files before removed after : nat)
| MasterSaved
| WidthsAdjusted
| OpenedMaster
| CouldNotOpen.

(** ** Cleaning (clean_dataframe) *)

Definition l_item_description : str := lit "item description".
Definition l_description : str := lit "description".
Definition l_unit_cost : str := lit "unit cost".
Definition l_category : str := lit "category".
Definition l_source_file : str := lit "source file".

(** [.str.replace] of the pattern [[^0-9.]] by the empty text: every
    character other than a digit or a dot is removed. *)
Definition strip_non_numeric (s : str) : str :=
  filter (fun c => Text.is_digit c || Text.is_dot c) s.

(** [.replace] of the empty text by ["0"]. *)
Definition empty_to_zero (s : str) : str :=
  if bool_decide (s = []) then lit "0" else s.

(** The cost pipeline on one cell; [None] is the [ValueError] of
    [.astype(float)], and the float of a missing cell is NaN. *)
Definition clean_cost (c : raw) : option float64 :=
  match astype_str c with
  | Some s => Float.of_text (empty_to_zero (strip_non_numeric s))
  | None => Some NaN
  end.

(** [df["description"].astype(str).str.strip()] on one cell. *)
Definition clean_description (c : raw) : value :=
  match astype_str c with
  | Some s => VText (Text.strip s)
  | None => VMissing
  end.

(** What a call of [clean_dataframe] leaves: the frame of the caller,
    which the function changes in place, the lines printed, and the value
    returned or the exception raised.  The frame returned is given by its
    rows; the labels [category] and [source file] occur once in it (a
    frame that came with one of them twice keeps both columns in pandas,
    with the same content). *)
Record cleaned := Cleaned {
  df_after : frame cell;          (* the caller's frame when the call ends *)
  printed : list event;
  returned : result (option table)
}.

Definition clean_dataframe (df : frame raw) (source category : str) : cleaned :=
  let df1 := rename_labels (fun l => Text.lower (Text.strip l)) df in
  let df2 :=
    if bool_decide (l_item_description ∈ labels df1)
    then rename_labels
           (fun l => if bool_decide (l = l_item_description) then l_description else l)
           df1
    else df1 in
  if negb (bool_decide (l_description ∈ labels df2))
     || negb (bool_decide (l_unit_cost ∈ labels df2))
  then Cleaned (as_cells df2) [SkippingMissingColumns source] (Return None)
  else
    match select l_description df2 with
    | [descs] =>
        let descs' := clean_description <$> descs in
        let df3 := set_column l_description (Txt <$> descs') (as_cells df2) in
        match select l_unit_cost df2 with
        | [costs] =>
            match mapM clean_cost costs with
            | None => Cleaned df3 [] (Raise ValueError)
            | Some costs' =>
                let df4 := set_column l_unit_cost (Num <$> costs') df3 in
                let n := length descs in
                let df5 :=
                  set_column l_category (replicate n (Txt (VText category))) df4 in
                let df6 :=
                  set_column l_source_file (replicate n (Txt (VText source))) df5 in
                Cleaned df6 [Processed source n category]
                  (Return (Some (zip_with (fun d c => Row (VText category) d c source)
                                          descs' costs')))
            end
        | _ => Cleaned df3 [] (Raise AttributeError)
        end
    | _ => Cleaned (as_cells df2) [] (Raise AttributeError)
    end.

(** ** Files *)

(** [Path.suffix] and [Path.stem]: the name is cut at its last dot when
    that dot is neither the first nor the last character. *)
Fixpoint rfind_dot (name : str) : option nat :=
  match name with
  | [] => None
  | c :: name' =>
      match rfind_dot name' with
      | Some i => Some (S i)
      | None => if Text.is_dot c then Some 0%nat else None
      end
  end.

Definition cut_point (name : str) : nat :=
  match rfind_dot name with
  | Some i =>
      if bool_decide (0 < i)%nat && bool_decide (i < length name - 1)%nat
      then i else length name
  | None => length name
  end.

Definition suffix (name : str) : str := drop (cut_point name) name.
Definition stem (name : str) : str := take (cut_point name) name.

(** A file of the input folder: its name and what the reader for its
    suffix ([pd.read_csv] or [pd.read_excel]) returns, [None] when the
    reader raises. *)
Record entry := Entry {
  fname : str;
  content : option (frame raw)
}.

(** [categories.json]: absent, not JSON ([json.load] raises), or the
    mapping it holds. *)
Inductive config_file :=
| ConfigMissing
| ConfigMalformed
| ConfigOk (categories : CategoryMap).

(** The files the program touches: [categories.json], the input folder
    ([None] when it does not exist) in the order [iterdir] lists it, and
    the master file ([None] when it does not exist), given as the table
    [pd.read_excel] returns for it: a workbook with the four columns,
    whose category and description cells are texts, numbers or missing.
    The master file is not a file of the input folder. *)
Record world := World {
  config : config_file;
  input_dir : option (list entry);
  master : option table
}.

(** What the host does after the master file is written: whether
    reopening and saving the workbook works, and whether launching the
    viewer works. *)
Record host := Host {
  resize_ok : bool;
  viewer_ok : bool
}.

(** [f.suffix.lower() in [".xlsx", ".csv"] and not f.name.startswith("~$")] *)
Definition is_input_file (f : entry) : bool :=
  (bool_decide (Text.lower (suffix (fname f)) = lit ".xlsx")
   || bool_decide (Text.lower (suffix (fname f)) = lit ".csv"))
  && negb (Text.startswith (lit "~$") (fname f)).

(** ** Merging (merge_estimates) *)

Record loop_state := LoopState {
  combined_data : list table;
  total_files_processed : nat;
  total_items_processed : nat
}.

(** The [for file in all_files] loop; an exception ends it. *)
Fixpoint process_files (categories : CategoryMap) (files : list entry)
    (st : loop_state) (out : list event) : loop_state * list event * option exn :=
  match files with
  | [] => (st, out, None)
  | file :: rest =>
      let cat := detect_category (stem (fname file)) categories in
      match content file with
      | None => (st, out, Some ReadError)
      | Some df =>
          let c := clean_dataframe df (fname file) cat in
          match returned c with
          | Raise e => (st, out ++ printed c, Some e)
          | Return None => process_files categories rest st (out ++ printed c)
          | Return (Some df_clean) =>
              process_files categories rest
                (LoopState (combined_data st ++ [df_clean])
                           (total_files_processed st + 1)
                           (total_items_processed st + length df_clean))
                (out ++ printed c)
          end
      end
  end.

(** [DataFrame.drop_duplicates(subset=...)], which keeps the first row of
    each value of the subset: [seen] holds the values met so far. *)
Fixpoint drop_duplicates_from {A K : Type} `{EqDecision K}
    (subset : A -> K) (seen : list K) (rows : list A) : list A :=
  match rows with
  | [] => []
  | r :: rows' =>
      if bool_decide (subset r ∈ seen)
      then drop_duplicates_from subset seen rows'
      else r :: drop_duplicates_from subset (subset r :: seen) rows'
  end.

Definition drop_duplicates {A K : Type} `{EqDecision K}
    (subset : A -> K) (rows : list A) : list A :=
  drop_duplicates_from subset [] rows.

(** [description.str.lower().str.replace(r"\s+", " ", regex=True)] *)
Definition normalized (r : row) : value :=
  str_method Text.collapse_spaces (str_method Text.lower (description r)).

(** Lines 204-208: add the column [normalized], drop the duplicates on
    [category] and [normalized], drop the column. *)
Definition deduplicate (combined_df : table) : table :=
  let with_normalized := (fun r : row => (r, normalized r)) <$> combined_df in
  let kept :=
    drop_duplicates (fun x : row * value => (category x.1, x.2)) with_normalized in
  fst <$> kept.

(** Lines 191-198: the table before deduplication and the banner. *)
Definition select_mode (mode : str) (existing : option table) (new_data : table)
    : table * list event :=
  match (if bool_decide (Text.lower mode = lit "append") then existing else None) with
  | Some existing_df => (existing_df ++ new_data, [AppendBanner])
  | None =>
      (new_data,
       if bool_decide (Text.lower mode = lit "overwrite") then [OverwriteBanner] else [])
  end.

(** [auto_adjust_column_width]: nothing catches what it raises. *)
Definition auto_adjust_column_width (h : host) : list event * option exn :=
  if resize_ok h then ([WidthsAdjusted], None) else ([], Some ResizeError).

(** [open_master_file]: the launch is inside [try ... except Exception]. *)
Definition open_master_file (h : host) : list event :=
  if viewer_ok h then [OpenedMaster] else [CouldNotOpen].

(** Which way a run of [merge_estimates] ends. *)
Inductive exit_kind :=
| ExitNoConfig
| ExitNoInput
| ExitNoValidData
| ExitDone
| ExitRaised (e : exn).

Record run := Run {
  after : world;
  console : list event;
  exit : exit_kind
}.

Definition merge_estimates (w : world) (h : host) (mode : str) : run :=
  let dir := default [] (input_dir w) in
  let w1 := World (config w) (Some dir) (master w) in
  match config w with
  | ConfigMissing => Run w1 [ConfigNotFound] ExitNoConfig
  | ConfigMalformed => Run w1 [] (ExitRaised JSONDecodeError)
  | ConfigOk categories =>
      let all_files := filter (fun f => is_input_file f) dir in
      if bool_decide (all_files = [])
      then Run w1 [NoInputFilesFound] ExitNoInput
      else
        match process_files categories all_files (LoopState [] 0 0) [] with
        | (_, out, Some e) => Run w1 out (ExitRaised e)
        | (st, out, None) =>
            if bool_decide (combined_data st = [])
            then Run w1 (out ++ [NoValidDataFound]) ExitNoValidData
            else
              let new_data := concat (combined_data st) in
              let '(combined_df, banner) := select_mode mode (master w) new_data in
              let before_dedup := length combined_df in
              let deduped := deduplicate combined_df in
              let after_dedup := length deduped in
              let duplicates_removed := (before_dedup - after_dedup)%nat in
              let out1 :=
                out ++ banner
                    ++ [Summary (total_files_processed st) before_dedup
                                duplicates_removed after_dedup] in
              let w2 := World (config w) (Some dir) (Some deduped) in
              let out2 := out1 ++ [MasterSaved] in
              match auto_adjust_column_width h with
              | (_, Some e) => Run w2 out2 (ExitRaised e)
              | (msgs, None) =>
                  Run w2 (out2 ++ msgs ++ open_master_file h) ExitDone
              end
        end
  end.

(** ** Notions the statements use *)

(** [p] occurs in [s] as a contiguous block. *)
Definition occurs_in (p s : str) : Prop := exists a b, s = a ++ p ++ b.

(** [keyword] is a substring of [filename] when case is ignored. *)
Definition matches_ci (keyword filename : str) : Prop :=
  occurs_in (Text.lower keyword) (Text.lower filename).

(** No keyword of [cats] matches [filename]. *)
Definition no_match (filename : str) (cats : CategoryMap) : Prop :=
  forall c kws k, (c, kws) ∈ cats -> k ∈ kws -> ~ matches_ci k filename.

(** A capital letter, by its code point: A..Z, and 0xC0..0xDE but for the
    multiplication sign 0xD7. *)
Definition capital (c : ascii) : Prop :=
  (65 <= Text.code c <= 90)%N
  \/ ((192 <= Text.code c <= 222)%N /\ Text.code c <> 215%N).

(** One character, or one letter in its two cases: the small letter of a
    capital stands 32 places after it. *)
Definition same_letter (a b : ascii) : Prop :=
  a = b
  \/ (capital a /\ Text.code b = (Text.code a + 32)%N)
  \/ (capital b /\ Text.code a = (Text.code b + 32)%N).

(** [keyword] is a case-insensitive substring of [filename]: a block of
    [filename] has the characters of [keyword], each letter in either
    case. *)
Definition occurs_caseless (keyword filename : str) : Prop :=
  exists a m b, filename = a ++ m ++ b /\ Forall2 same_letter keyword m.

(** No keyword of [cats] is a case-insensitive substring of [filename]. *)
Definition no_caseless_match (filename : str) (cats : CategoryMap) : Prop :=
  forall c kws k, (c, kws) ∈ cats -> k ∈ kws -> ~ occurs_caseless k filename.

(** The deduplication key of a row. *)
Definition key (r : row) : value * value := (category r, normalized r).

(** The files of the input folder the run reads, in order. *)
Definition input_files (w : world) : list entry :=
  filter (fun f => is_input_file f) (default [] (input_dir w)).

(** The table [new_data] of line 186, when the run reaches that line. *)
Definition new_data (w : world) : option table :=
  match config w with
  | ConfigOk categories =>
      match process_files categories (input_files w) (LoopState [] 0 0) [] with
      | (st, _, None) =>
          if bool_decide (combined_data st = []) then None
          else Some (concat (combined_data st))
      | _ => None
      end
  | _ => None
  end.

(** The label a column has after lines 103-105. *)
Definition final_label (l : str) : str :=
  let n := Text.lower (Text.strip l) in
  if bool_decide (n = l_item_description) then l_description else n.

(** The frame with the labels of lines 103-105, cells untouched. *)
Definition relabelled (df : frame raw) : frame raw := rename_labels final_label df.

(** The shape of [clean_dataframe] on the relabelled frame. *)
Inductive cleaning (df : frame raw) (source cat : str) : cleaned -> Prop :=
| CleanRejected :
    l_description ∉ labels (relabelled df) \/ l_unit_cost ∉ labels (relabelled df) ->
    cleaning df source cat
      (Cleaned (as_cells (relabelled df)) [SkippingMissingColumns source] (Return None))
| CleanRepeatedDescription :
    length (select l_description (relabelled df)) <> 1%nat ->
    cleaning df source cat
      (Cleaned (as_cells (relabelled df)) [] (Raise AttributeError))
| CleanRepeatedCost descs :
    select l_description (relabelled df) = [descs] ->
    length (select l_unit_cost (relabelled df)) <> 1%nat ->
    cleaning df source cat
      (Cleaned (set_column l_description (Txt <$> (clean_description <$> descs))
                           (as_cells (relabelled df)))
               [] (Raise AttributeError))
| CleanBadCost descs costs :
    select l_description (relabelled df) = [descs] ->
    select l_unit_cost (relabelled df) = [costs] ->
    mapM clean_cost costs = None ->
    cleaning df source cat
      (Cleaned (set_column l_description (Txt <$> (clean_description <$> descs))
                           (as_cells (relabelled df)))
               [] (Raise ValueError))
| CleanAccepted descs costs costs' :
    select l_description (relabelled df) = [descs] ->
    select l_unit_cost (relabelled df) = [costs] ->
    mapM clean_cost costs = Some costs' ->
    cleaning df source cat
      (Cleaned
         (set_column l_source_file (replicate (length descs) (Txt (VText source)))
            (set_column l_category (replicate (length descs) (Txt (VText cat)))
               (set_column l_unit_cost (Num <$> costs')
                  (set_column l_description (Txt <$> (clean_description <$> descs))
                     (as_cells (relabelled df))))))
         [Processed source (length descs) cat]
         (Return (Some (zip_with (fun d c => Row (VText cat) d c source)
                                 (clean_description <$> descs) costs')))).

(** The digits and the dots of a text, in their order. *)
Fixpoint digits_and_dots (s : str) : str :=
  match s with
  | [] => []
  | c :: s' =>
      if bool_decide (c ∈ lit "0123456789.") then c :: digits_and_dots s'
      else digits_and_dots s'
  end.

(** The text of a cost cell after the cast and the regular expression,
    [None] for a missing cell. *)
Definition cost_text (c : raw) : option str := strip_non_numeric <$> astype_str c.

Definition count_if (p : ascii -> bool) (s : str) : nat :=
  length (filter (fun c => p c) s).

(** A text over digits and dots that [float()] reads: one digit at least
    and one dot at most. *)
Definition decimal_numeral (s : str) : Prop :=
  (1 <= count_if Text.is_digit s)%nat /\ (count_if Text.is_dot s <= 1)%nat.

(** The cleaned texts of a cost that [float()] reads. *)
Definition readable (s : str) : Prop := s = [] \/ decimal_numeral s.

(** The cost cells that are read: a missing one, and one whose cleaned
    text is readable. *)
Definition readable_cell (c : raw) : Prop := from_option readable True (cost_text c).

(** The table a file contributes to [new_data], if any. *)
Definition cleaned_table (categories : CategoryMap) (f : entry) : option table :=
  match content f with
  | Some df =>
      match returned (clean_dataframe df (fname f)
                        (detect_category (stem (fname f)) categories)) with
      | Return (Some t) => Some t
      | _ => None
      end
  | None => None
  end.

(** The table before deduplication, lines 191-196. *)
Definition combined (mode : str) (existing : option table) (nd : table) : table :=
  match existing with
  | Some existing_df =>
      if bool_decide (Text.lower mode = lit "append") then existing_df ++ nd else nd
  | None => nd
  end.

(** A row of a master file whose category and description have been
    read back as texts. *)
Definition read_as_text (r : row) : Prop :=
  exists c d, category r = VText c /\ description r = VText d.

(** The keys of a table, as a set. *)
Definition keys (t : table) : gset (value * value) := list_to_set (key <$> t).


(** The exits of a run that gives up, each with its diagnostic. *)
Definition abort_exits : list (exit_kind * event) :=
  [(ExitNoConfig, ConfigNotFound); (ExitNoInput, NoInputFilesFound);
   (ExitNoValidData, NoValidDataFound)].

(** ** Sample inputs *)

Definition sample_categories : CategoryMap :=
  [(lit "Electrical", [lit "electrical"]); (lit "Plumbing", [lit "plumb"; lit "pipe"])].

(** [ElectricalBid.csv]: two rows for the same item at two prices. *)
Definition electrical_bid : entry :=
  Entry (lit "ElectricalBid.csv")
    (Some [(lit "Item Description", [RStr (lit "12AWG wire"); RStr (lit "12AWG wire")]);
           (lit " Unit Cost", [RStr (lit "$1.25"); RStr (lit "$1.30")])]).

(** A file without a cost column. *)
Definition notes_file : entry :=
  Entry (lit "notes.csv") (Some [(lit "Description", [RStr (lit "see drawings")])]).

(** A file with a cost whose cleaned text has two dots. *)
Definition pipes_frame : frame raw :=
  [(lit "Description", [RStr (lit "Copper pipe")]);
   (lit "Unit Cost", [RStr (lit "12.34.56")])].

Definition pipes_file : entry := Entry (lit "pipes.xlsx") (Some pipes_frame).

(** A file name and a keyword with letters beyond ASCII:
    [PIPE-ÉLECTRIQUE] and [électr]. *)
Definition french_bid : str := lit "PIPE-" ++ ["201"%char] ++ lit "LECTRIQUE".

Definition french_keyword : str := ["233"%char] ++ lit "lectr".

Definition french_categories : CategoryMap :=
  [(lit "Elec", [french_keyword]); (lit "Plumbing", [lit "pipe"])].

Definition sample_world : world :=
  World (ConfigOk sample_categories) (Some [electrical_bid; notes_file]) None.

Definition wire (cost : float64) (source : str) : row :=
  Row (VText (lit "Electrical")) (VText (lit "12AWG wire")) cost source.

(** A master file in which two rows have the same key. *)
Definition repeated_master : table :=
  [wire (Finite 1 0) (lit "old.csv"); wire (Finite 2 0) (lit "older.csv")].

(** A master file with a row of negative cost, a credit note entered by
    hand. *)
Definition credit_note : row :=
  Row (VText (lit "Electrical")) (VText (lit "credit note")) (Finite (-5) 0)
      (lit "manual.csv").

Definition credit_world : world :=
  World (ConfigOk sample_categories) (Some [electrical_bid]) (Some [credit_note]).

Definition repeated_world : world :=
  World (ConfigOk sample_categories) (Some [electrical_bid]) (Some repeated_master).

Definition pipes_world : world :=
  World (ConfigOk sample_categories) (Some [electrical_bid; pipes_file]) None.

Definition sample_host : host := Host true true.

(** A parts list whose descriptions are part numbers. *)
Definition parts_file : entry :=
  Entry (lit "pipe_parts.csv")
    (Some [(lit "Description", [RInt 1001; RInt 1002; RInt 1003]);
           (lit "Unit Cost", [RInt 4; RInt 5; RInt 6])]).

(** A row of the master file the program writes from the parts list, and
    the same row as [pd.read_excel] returns it: the text of the part
    number has come back as a number. *)
Definition part_written (number : str) (cost : float64) : row :=
  Row (VText (lit "Plumbing")) (VText number) cost (lit "pipe_parts.csv").

Definition part_read (number : str) (cost : float64) : row :=
  Row (VText (lit "Plumbing")) (VNumber number) cost (lit "pipe_parts.csv").

Definition parts_written : table :=
  [part_written (lit "1001") (Finite 4503599627370496 (-50));
   part_written (lit "1002") (Finite 5629499534213120 (-50));
   part_written (lit "1003") (Finite 6755399441055744 (-50))].

Definition parts_read : table :=
  [part_read (lit "1001") (Finite 4503599627370496 (-50));
   part_read (lit "1002") (Finite 5629499534213120 (-50));
   part_read (lit "1003") (Finite 6755399441055744 (-50))].

(** A file with one item written in two ways: [Gate valve], and
    [GATE VALVE] with a no-break space and a space between the words. *)
Definition valves_file : entry :=
  Entry (lit "pipe_valves.csv")
    (Some [(lit "Description",
            [RStr (lit "Gate valve"); RStr (lit "GATE" ++ ["160"%char] ++ lit " VALVE")]);
           (lit "Unit Cost", [RInt 40; RInt 45])]).

Definition gate_valve : row :=
  Row (VText (lit "Plumbing")) (VText (lit "Gate valve"))
      (Finite 5629499534213120 (-47)) (lit "pipe_valves.csv").

(** The first run, over the parts list, and the second, over the master
    file of the first and the valves. *)
Definition parts_world : world :=
  World (ConfigOk sample_categories) (Some [parts_file]) None.

Definition valves_world : world :=
  World (ConfigOk sample_categories) (Some [valves_file]) (Some parts_read).

(** ** The entry point and the column widths *)

(** Lines 230-234: what the program prints before it reads the answer,
    the prompt of [input] last. *)
Definition prompt_lines : list str :=
  [lit "Select run mode:";
   lit "1 = Overwrite (rebuild master file)";
   lit "2 = Append (add only new unique items)";
   lit "Enter 1 or 2: "].

(** Lines 234-235: [choice = input(...).strip()] and
    [mode = "overwrite" if choice == "1" else "append"]. *)
Definition choose_mode (typed : str) : str :=
  let choice := Text.strip typed in
  if bool_decide (choice = lit "1") then lit "overwrite" else lit "append".

(** The script run as a program: the prompt, then the merge in the mode
    the answer selects. *)
Definition main (w : world) (h : host) (typed : str) : list str * run :=
  (prompt_lines, merge_estimates w h (choose_mode typed)).

(** The value of a worksheet cell as [openpyxl] loads it.  A float is
    given by whether it is zero and by the text [str()] shows for it. *)
Inductive sheet_value :=
| SNone
| SText (s : str)
| SInt (z : Z)
| SFloat (is_zero : bool) (shown : str).

(** [if cell.value]: the truth value Python gives the cell value. *)
Definition truthy (v : sheet_value) : bool :=
  match v with
  | SNone => false
  | SText s => negb (bool_decide (s = []))
  | SInt z => negb (z =? 0)
  | SFloat is_zero _ => negb is_zero
  end.

(** [str(cell.value)] *)
Definition py_str (v : sheet_value) : str :=
  match v with
  | SNone => lit "None"
  | SText s => s
  | SInt z => lit (NilZero.string_of_int (Z.to_int z))
  | SFloat _ shown => shown
  end.

(** Lines 39-40 on one column, which has a first cell and the others:
    [max(len(str(cell.value)) if cell.value else 0 ...) + 2]. *)
Definition column_width (first : sheet_value) (others : list sheet_value) : nat :=
  let len v := if truthy v then length (py_str v) else 0%nat in
  (foldr Nat.max 0%nat (len <$> first :: others) + 2)%nat.

(** ** Notions of the further statements *)

(** A file at which the loop stops on an exception: its reader raises, or
    [clean_dataframe] does. *)
Definition raises (categories : CategoryMap) (f : entry) : Prop :=
  content f = None
  \/ exists df e,
       content f = Some df
       /\ returned (clean_dataframe df (fname f)
                      (detect_category (stem (fname f)) categories)) = Raise e.

(** A file the loop skips: [clean_dataframe] returns [None] for it. *)
Definition rejected (categories : CategoryMap) (f : entry) : Prop :=
  exists df,
    content f = Some df
    /\ returned (clean_dataframe df (fname f)
                   (detect_category (stem (fname f)) categories)) = Return None.

(** A text without white space at either end. *)
Definition trimmed (s : str) : Prop :=
  (forall c, head s = Some c -> Text.is_space c = false)
  /\ (forall c, last s = Some c -> Text.is_space c = false).

(** Two spaces side by side somewhere in a text. *)
Fixpoint has_double_space (s : str) : bool :=
  match s with
  | a :: (b :: _) as t =>
      (bool_decide (a = " "%char) && bool_decide (b = " "%char))
      || has_double_space t
  | _ => false
  end.

(** A non-empty run of white space. *)
Definition blank_run (ws : str) : Prop :=
  ws <> [] /\ forall c, c ∈ ws -> Text.is_space c = true.

(** A file with the two columns and no row. *)
Definition header_only_file : entry :=
  Entry (lit "empty.csv") (Some [(lit "Description", []); (lit "Unit Cost", [])]).

(** A frame in which two columns end up labelled [description]. *)
Definition two_descriptions : frame raw :=
  [(lit "Item Description", [RStr (lit "bolt")]);
   (lit "Description", [RStr (lit "M8 bolt")]);
   (lit "Unit Cost", [RInt 3])].

(* ------------------------------------------------------------------ *)
(** * Properties *)

(** ** Text *)

Lemma startswith_spec p s :
  Text.startswith p s = true <-> exists b, s = p ++ b.
Proof.
  revert s; induction p as [|a p IH]; intros s; simpl.
  - split; eauto.
  - destruct s as [|b s].
    + split; [discriminate | intros [? ?]; discriminate].
    + rewrite andb_true_iff, bool_decide_eq_true, IH. split.
      * intros [-> [t ->]]. eauto.
      * intros [t Ht]. injection Ht as -> ->. eauto.
Qed.

Lemma contains_spec p s :
  Text.contains p s = true <-> occurs_in p s.
Proof.
  unfold occurs_in. induction s as [|c s IH]; simpl.
  - rewrite orb_false_r, startswith_spec. split.
    + intros [b Hb]. exists [], b. exact Hb.
    + intros [a [b Hab]]. destruct a; simpl in Hab.
      * eauto.
      * discriminate.
  - rewrite orb_true_iff, startswith_spec, IH. split.
    + intros [[b Hb] | [a [b Hab]]].
      * exists [], b. exact Hb.
      * exists (c :: a), b. simpl. now rewrite Hab.
    + intros [a [b Hab]]. destruct a as [|c' a]; simpl in Hab.
      * left. eauto.
      * right. injection Hab as _ Hs. eauto.
Qed.

(** ** Category detection *)

Lemma any_keyword_in_spec filename keywords :
  any_keyword_in (Text.lower filename) keywords = true
  <-> exists k, k ∈ keywords /\ matches_ci k filename.
Proof.
  unfold any_keyword_in, matches_ci. rewrite existsb_exists. split.
  - intros [k [Hin Hk]]. exists k. split.
    + now apply list_elem_of_In.
    + now apply contains_spec.
  - intros [k [Hin Hk]]. exists k. split.
    + now apply list_elem_of_In.
    + now apply contains_spec.
Qed.

Lemma is_upper_capital c : Text.is_upper c = true <-> capital c.
Proof.
  unfold Text.is_upper, capital.
  rewrite orb_true_iff, !andb_true_iff, negb_true_iff, !N.leb_le, N.eqb_neq. tauto.
Qed.

Lemma code_inj a b : Text.code a = Text.code b -> a = b.
Proof.
  unfold Text.code. intros H.
  now rewrite <- (ascii_N_embedding a), <- (ascii_N_embedding b), H.
Qed.

Lemma code_lower_char c :
  Text.code (Text.lower_char c)
  = if Text.is_upper c then (Text.code c + 32)%N else Text.code c.
Proof.
  unfold Text.lower_char. destruct (Text.is_upper c) eqn:Hc; [|reflexivity].
  apply is_upper_capital in Hc. unfold Text.code in *.
  apply N_ascii_embedding. unfold capital, Text.code in Hc. lia.
Qed.

(** Two characters have the same lowering exactly when they are one
    letter. *)
Lemma lower_char_same a b :
  Text.lower_char a = Text.lower_char b <-> same_letter a b.
Proof.
  pose proof (is_upper_capital a) as Ha. pose proof (is_upper_capital b) as Hb.
  unfold same_letter. split.
  - intros H. apply (f_equal Text.code) in H. rewrite !code_lower_char in H.
    destruct (Text.is_upper a), (Text.is_upper b).
    + left. apply code_inj. lia.
    + right. left. split; [now apply Ha | lia].
    + right. right. split; [now apply Hb | exact H].
    + left. now apply code_inj.
  - intros [-> | [[Hc Hab] | [Hc Hab]]]; [reflexivity| |];
      apply code_inj; rewrite !code_lower_char.
    + apply is_upper_capital in Hc as Hu. rewrite Hu.
      destruct (Text.is_upper b) eqn:Hub; [|now symmetry].
      apply is_upper_capital in Hub. unfold capital in Hc, Hub. lia.
    + apply is_upper_capital in Hc as Hu. rewrite Hu.
      destruct (Text.is_upper a) eqn:Hua; [|exact Hab].
      apply is_upper_capital in Hua. unfold capital in Hc, Hua. lia.
Qed.

Lemma lower_same k m : Text.lower k = Text.lower m <-> Forall2 same_letter k m.
Proof.
  unfold Text.lower. revert m; induction k as [|a k IH]; intros [|b m]; csimpl.
  - split; [constructor | reflexivity].
  - split; [discriminate | intros H; inversion H].
  - split; [discriminate | intros H; inversion H].
  - split.
    + intros [= Hab Hkm]. constructor; [now apply lower_char_same | now apply IH].
    + intros H. inversion H as [|? ? ? ? Hab Hkm]; subst.
      apply lower_char_same in Hab. apply IH in Hkm. now rewrite Hab, Hkm.
Qed.

(** What the code tests, [keyword.lower() in filename.lower()], is that
    the keyword is a case-insensitive substring. *)
Lemma matches_ci_caseless keyword filename :
  matches_ci keyword filename <-> occurs_caseless keyword filename.
Proof.
  unfold matches_ci, occurs_caseless, occurs_in. split.
  - intros (a' & b' & H). unfold Text.lower in H at 1.
    apply fmap_app_inv in H as (a & mb & -> & Hmb & ->).
    symmetry in Hmb. apply fmap_app_inv in Hmb as (m & b & Hm & -> & ->).
    exists a, m, b. split; [reflexivity|]. now apply lower_same.
  - intros (a & m & b & -> & Hkm). apply lower_same in Hkm.
    exists (Text.lower a), (Text.lower b). unfold Text.lower in *.
    now rewrite !fmap_app, Hkm.
Qed.

Lemma any_keyword_in_caseless filename keywords :
  any_keyword_in (Text.lower filename) keywords = true
  <-> exists k, k ∈ keywords /\ occurs_caseless k filename.
Proof.
  rewrite any_keyword_in_spec. split; intros (k & Hk & Hm); exists k;
    (split; [exact Hk | now apply matches_ci_caseless]).
Qed.

(** C4: [detect_category] returns the first category, in the order of the
    configuration, that has a keyword occurring in the file name as a
    case-insensitive substring, and ["Unknown"] when no keyword of any
    category occurs. *)
Theorem detect_category_first_match (filename : str) (categories : CategoryMap) :
  (exists before cat keywords rest,
      categories = before ++ (cat, keywords) :: rest
      /\ no_caseless_match filename before
      /\ (exists k, k ∈ keywords /\ occurs_caseless k filename)
      /\ detect_category filename categories = cat)
  \/ (no_caseless_match filename categories
      /\ detect_category filename categories = lit "Unknown").
Proof.
  unfold detect_category.
  induction categories as [|[cat keywords] rest IH]; simpl.
  - right. split; [|reflexivity].
    intros c kws k Hin. inversion Hin.
  - destruct (any_keyword_in (Text.lower filename) keywords) eqn:Hany.
    + left. exists [], cat, keywords, rest. repeat split.
      * intros c kws k Hin. inversion Hin.
      * now apply any_keyword_in_caseless.
    + assert (Hnone : forall k, k ∈ keywords -> ~ occurs_caseless k filename).
      { intros k Hk Hm.
        assert (any_keyword_in (Text.lower filename) keywords = true) as Ht
          by (apply any_keyword_in_caseless; eauto).
        congruence. }
      destruct IH as [(before & c & kws & rest' & -> & Hno & Hex & Hres) | [Hno Hres]].
      * left. exists ((cat, keywords) :: before), c, kws, rest'. repeat split; auto.
        intros c' kws' k Hin Hk. apply elem_of_cons in Hin as [Heq | Hin].
        -- injection Heq as -> ->. now apply Hnone.
        -- now apply (Hno c' kws' k).
      * right. split; [|exact Hres].
        intros c' kws' k Hin Hk. apply elem_of_cons in Hin as [Heq | Hin].
        -- injection Heq as -> ->. now apply Hnone.
        -- now apply (Hno c' kws' k).
Qed.

Lemma detect_category_first_match_witness :
  detect_category french_bid french_categories = lit "Elec"
  /\ occurs_caseless french_keyword french_bid
  /\ occurs_caseless (lit "pipe") french_bid.
Proof.
  assert (Helec : occurs_caseless french_keyword french_bid)
    by (apply matches_ci_caseless, contains_spec; vm_compute; reflexivity).
  assert (Hpipe : occurs_caseless (lit "pipe") french_bid)
    by (apply matches_ci_caseless, contains_spec; vm_compute; reflexivity).
  split; [|split; assumption].
  destruct (detect_category_first_match french_bid french_categories)
    as [(before & cat & kws & rest & Hsplit & Hno & _ & Hres) | [Hno _]].
  - rewrite Hres. destruct before as [|c0 before].
    + now injection Hsplit as <- _ _.
    + exfalso. injection Hsplit as <- _.
      apply (Hno (lit "Elec") [french_keyword] french_keyword);
        [left | left | exact Helec].
  - exfalso.
    apply (Hno (lit "Elec") [french_keyword] french_keyword);
      [left | left | exact Helec].
Defined.

(** ** Removal of duplicates *)

Section drop_duplicates.
Context {A K : Type} `{EqDecision K} (f : A -> K).

Lemma drop_duplicates_from_sublist seen rows :
  sublist (drop_duplicates_from f seen rows) rows.
Proof.
  revert seen; induction rows as [|r rows IH]; intros seen; simpl.
  - constructor.
  - case_bool_decide.
    + apply sublist_cons, IH.
    + apply sublist_skip, IH.
Qed.

Lemma drop_duplicates_from_group seen rows k :
  filter (fun r => f r = k) (drop_duplicates_from f seen rows)
  = if bool_decide (k ∈ seen) then []
    else option_list (head (filter (fun r => f r = k) rows)).
Proof.
  revert seen; induction rows as [|r rows IH]; intros seen; simpl.
  - now case_bool_decide.
  - rewrite (filter_cons _ r rows).
    destruct (decide (f r ∈ seen)) as [Hin | Hnin];
      [rewrite (bool_decide_eq_true_2 _ Hin) | rewrite (bool_decide_eq_false_2 _ Hnin)];
      [|rewrite filter_cons]; rewrite IH;
      destruct (decide (f r = k)) as [Heq | Hne]; simpl;
      destruct (decide (k ∈ seen)) as [Hk | Hk];
      rewrite ?(bool_decide_eq_true_2 _ Hk), ?(bool_decide_eq_false_2 _ Hk);
      try reflexivity; try congruence.
    + rewrite bool_decide_eq_true_2; [reflexivity | rewrite Heq; left].
    + rewrite bool_decide_eq_true_2; [reflexivity | now right].
    + rewrite bool_decide_eq_false_2; [reflexivity|].
      intros [?|?]%elem_of_cons; congruence.
Qed.

Lemma drop_duplicates_from_keys seen rows k :
  k ∈ f <$> drop_duplicates_from f seen rows <-> k ∈ f <$> rows /\ k ∉ seen.
Proof.
  revert seen; induction rows as [|r rows IH]; intros seen; simpl.
  - split; [intros H0; inversion H0 | intros [H0 _]; inversion H0].
  - case_bool_decide as Hin; [rewrite IH | rewrite fmap_cons]; rewrite !elem_of_cons.
    + split; [tauto|]. intros [[-> | ?] ?]; tauto.
    + rewrite IH, elem_of_cons. split.
      * intros [-> | [? ?]]; tauto.
      * intros [[-> | ?] ?]; [tauto|].
        destruct (decide (k = f r)); tauto.
Qed.

Lemma drop_duplicates_from_NoDup seen rows :
  NoDup (f <$> drop_duplicates_from f seen rows).
Proof.
  revert seen; induction rows as [|r rows IH]; intros seen; simpl.
  - constructor.
  - case_bool_decide; [apply IH|].
    rewrite fmap_cons. constructor; [|apply IH].
    rewrite drop_duplicates_from_keys, elem_of_cons. tauto.
Qed.

Lemma drop_duplicates_from_id seen rows :
  NoDup (f <$> rows) -> (forall k, k ∈ f <$> rows -> k ∉ seen) ->
  drop_duplicates_from f seen rows = rows.
Proof.
  revert seen; induction rows as [|r rows IH]; intros seen Hnd Hfresh; simpl.
  - reflexivity.
  - rewrite fmap_cons in Hnd, Hfresh. apply NoDup_cons in Hnd as [Hr Hnd].
    rewrite bool_decide_eq_false_2 by (apply Hfresh; left).
    f_equal. apply IH; [exact Hnd|].
    intros k Hk [-> | Hs]%elem_of_cons; [contradiction|].
    apply (Hfresh k); [now right | exact Hs].
Qed.

Lemma drop_duplicates_from_app seen rows1 rows2 :
  drop_duplicates_from f seen (rows1 ++ rows2)
  = drop_duplicates_from f seen rows1
    ++ drop_duplicates_from f
         (rev (f <$> drop_duplicates_from f seen rows1) ++ seen) rows2.
Proof.
  revert seen; induction rows1 as [|r rows1 IH]; intros seen; simpl.
  - reflexivity.
  - case_bool_decide; [apply IH|].
    rewrite IH. simpl. rewrite <- app_assoc. reflexivity.
Qed.

End drop_duplicates.

Lemma drop_duplicates_from_fmap {A B K : Type} `{EqDecision K}
    (g : B -> K) (h : A -> B) (p : B -> A) seen rows :
  (forall a, p (h a) = a) ->
  p <$> drop_duplicates_from g seen (h <$> rows)
  = drop_duplicates_from (fun a => g (h a)) seen rows.
Proof.
  intros Hp. revert seen; induction rows as [|r rows IH]; intros seen; simpl.
  - reflexivity.
  - case_bool_decide; [apply IH|].
    rewrite fmap_cons, Hp, IH. reflexivity.
Qed.

Lemma deduplicate_by_key t : deduplicate t = drop_duplicates key t.
Proof.
  unfold deduplicate, drop_duplicates.
  now rewrite (drop_duplicates_from_fmap _ (fun r : row => (r, normalized r)) fst).
Qed.

Lemma deduplicate_sublist t : sublist (deduplicate t) t.
Proof. rewrite deduplicate_by_key. apply drop_duplicates_from_sublist. Qed.

Lemma deduplicate_group t k :
  filter (fun r => key r = k) (deduplicate t)
  = option_list (head (filter (fun r => key r = k) t)).
Proof.
  rewrite deduplicate_by_key. unfold drop_duplicates.
  rewrite drop_duplicates_from_group.
  rewrite bool_decide_eq_false_2; [reflexivity | apply not_elem_of_nil].
Qed.

Lemma deduplicate_NoDup t : NoDup (key <$> deduplicate t).
Proof. rewrite deduplicate_by_key. apply drop_duplicates_from_NoDup. Qed.

Lemma deduplicate_keys t : keys (deduplicate t) = keys t.
Proof.
  unfold keys. apply set_eq. intros k. rewrite !elem_of_list_to_set.
  rewrite deduplicate_by_key. unfold drop_duplicates.
  rewrite drop_duplicates_from_keys. pose proof (not_elem_of_nil k). tauto.
Qed.

Lemma deduplicate_unique t : NoDup (key <$> t) -> deduplicate t = t.
Proof.
  intros Hnd. rewrite deduplicate_by_key. apply drop_duplicates_from_id; [exact Hnd|].
  intros k _. apply not_elem_of_nil.
Qed.

Lemma deduplicate_app_length t1 t2 :
  NoDup (key <$> t1) -> (length t1 <= length (deduplicate (t1 ++ t2)))%nat.
Proof.
  intros Hnd. rewrite deduplicate_by_key. unfold drop_duplicates.
  rewrite drop_duplicates_from_app, length_app.
  rewrite (drop_duplicates_from_id key [] t1 Hnd); [lia|].
  intros k _. apply not_elem_of_nil.
Qed.

(** ** The run *)

Lemma process_files_order categories files st out st' out' :
  process_files categories files st out = (st', out', None) ->
  combined_data st' = combined_data st ++ omap (cleaned_table categories) files.
Proof.
  revert st out; induction files as [|f files IH]; intros st out; simpl.
  - intros [= <- _]. now rewrite app_nil_r.
  - unfold cleaned_table at 1.
    destruct (content f) as [df|]; [|discriminate].
    destruct (returned _) as [[t|]|e]; [| |discriminate].
    + intros Hrun. apply IH in Hrun. simpl in Hrun.
      now rewrite Hrun, <- app_assoc.
    + apply IH.
Qed.

Lemma new_data_in_file_order w categories nd :
  config w = ConfigOk categories -> new_data w = Some nd ->
  nd = concat (omap (cleaned_table categories) (input_files w)).
Proof.
  unfold new_data. intros ->.
  destruct (process_files _ _ _ _) as [[st out] [e|]] eqn:Hrun; [discriminate|].
  case_bool_decide; [discriminate|]. intros [= <-].
  apply process_files_order in Hrun. now rewrite Hrun.
Qed.

Lemma select_mode_combined mode existing nd :
  (select_mode mode existing nd).1 = combined mode existing nd.
Proof.
  unfold select_mode, combined.
  destruct existing as [e|]; case_bool_decide; reflexivity.
Qed.

Lemma merge_estimates_writes w h mode nd :
  new_data w = Some nd ->
  after (merge_estimates w h mode)
  = World (config w) (Some (default [] (input_dir w)))
          (Some (deduplicate (combined mode (master w) nd))).
Proof.
  unfold new_data, merge_estimates, input_files.
  destruct (config w) as [| |categories]; [discriminate..|].
  destruct (process_files _ _ _ _) as [[st out] [e|]] eqn:Hrun; [discriminate|].
  case_bool_decide as Hcd; [discriminate|]. intros [= <-].
  case_bool_decide as Hfiles.
  - rewrite Hfiles in Hrun. simpl in Hrun. injection Hrun as <- _.
    now contradiction Hcd.
  - rewrite <- select_mode_combined.
    destruct (select_mode _ _ _) as [combined_df banner]. simpl.
    destruct (auto_adjust_column_width h) as [msgs [e|]]; reflexivity.
Qed.

Lemma merge_estimates_keeps w h mode :
  new_data w = None ->
  master (after (merge_estimates w h mode)) = master w.
Proof.
  unfold new_data, merge_estimates, input_files.
  destruct (config w) as [| |categories]; [reflexivity..|].
  case_bool_decide; [reflexivity|].
  destruct (process_files _ _ _ _) as [[st out] [e|]]; [reflexivity|].
  case_bool_decide; [reflexivity | discriminate].
Qed.

(** The table the run writes is the table before deduplication (the rows
    of the existing master first in append mode, then the new rows in the
    order of the files) in which, for every key the run computes, the
    first row with that key is kept and every later one dropped; the key
    reads neither the cost nor the source file, and for a row whose
    description is a text it is the category with the description
    lowercased and every run of white space made one space. *)
Theorem merged_table_keeps_first_per_key (w : world) (h : host) (mode : str) (nd : table) :
  new_data w = Some nd ->
  let combined_df := combined mode (master w) nd in
  let written := deduplicate combined_df in
  master (after (merge_estimates w h mode)) = Some written
  /\ (forall categories, config w = ConfigOk categories ->
        nd = concat (omap (cleaned_table categories) (input_files w)))
  /\ sublist written combined_df
  /\ (forall k, filter (fun r => key r = k) written
                = option_list (head (filter (fun r => key r = k) combined_df)))
  /\ (forall r cost source,
        key (Row (category r) (description r) cost source) = key r)
  /\ (forall r d, description r = VText d ->
        key r = (category r, VText (Text.collapse_spaces (Text.lower d)))).
Proof.
  intros Hnd combined_df written. repeat split.
  - now rewrite (merge_estimates_writes w h mode nd Hnd).
  - intros categories Hc. now apply new_data_in_file_order.
  - apply deduplicate_sublist.
  - intros k. apply deduplicate_group.
  - intros r d Hd. unfold key, normalized. now rewrite Hd.
Qed.

Lemma merged_table_keeps_first_per_key_witness :
  new_data repeated_world = Some [wire (Finite 5629499534213120 (-52)) (lit "ElectricalBid.csv");
                                  wire (Finite 5854679515581645 (-52)) (lit "ElectricalBid.csv")]
  /\ master (after (merge_estimates repeated_world sample_host (lit "append")))
     = Some [wire (Finite 1 0) (lit "old.csv")].
Proof.
  split; [vm_compute; reflexivity|].
  refine (eq_trans (proj1 (merged_table_keeps_first_per_key
            repeated_world sample_host (lit "append") _ _)) _);
    vm_compute; reflexivity.
Defined.

(** C1 fails on the code when a description is not a text.  The run over
    the parts list writes three rows with three keys.  Read back, the
    part numbers are numbers, on which [.str.lower()] gives the missing
    value: the three rows have one key, and the append run over them keeps
    the first and drops the two others, whose descriptions no row kept
    has.  On descriptions that are texts the same run does what the claim
    says: of the two writings of the gate valve it keeps the first. *)
Theorem numeric_descriptions_collapse :
  master (after (merge_estimates parts_world sample_host (lit "overwrite")))
  = Some parts_written
  /\ key <$> parts_written
     = [(VText (lit "Plumbing"), VText (lit "1001"));
        (VText (lit "Plumbing"), VText (lit "1002"));
        (VText (lit "Plumbing"), VText (lit "1003"))]
  /\ key <$> parts_read
     = [(VText (lit "Plumbing"), VMissing); (VText (lit "Plumbing"), VMissing);
        (VText (lit "Plumbing"), VMissing)]
  /\ new_data valves_world
     = Some [gate_valve;
             Row (VText (lit "Plumbing"))
                 (VText (lit "GATE" ++ ["160"%char] ++ lit " VALVE"))
                 (Finite 6333186975989760 (-47)) (lit "pipe_valves.csv")]
  /\ master (after (merge_estimates valves_world sample_host (lit "append")))
     = Some [part_read (lit "1001") (Finite 4503599627370496 (-50)); gate_valve].
Proof. repeat split; vm_compute; reflexivity. Qed.

Lemma process_files_rejected categories files st out :
  Forall (fun f => exists df,
            content f = Some df
            /\ returned (clean_dataframe df (fname f)
                           (detect_category (stem (fname f)) categories))
               = Return None) files ->
  exists out', process_files categories files st out = (st, out', None).
Proof.
  intros Hall. revert out; induction Hall as [|f files (df & Hc & Hr) _ IH]; intros out; simpl.
  - eauto.
  - rewrite Hc, Hr. apply IH.
Qed.



(** A run that ends on one of the three returns leaves the master file as
    it was. *)
Lemma abort_exit_keeps_master w h mode :
  exit (merge_estimates w h mode) ∈ abort_exits.*1 ->
  master (after (merge_estimates w h mode)) = master w.
Proof.
  unfold merge_estimates, abort_exits.
  destruct (config w) as [| |categories]; [reflexivity..|].
  case_bool_decide; [reflexivity|].
  destruct (process_files _ _ _ _) as [[st out] [e|]]; [reflexivity|].
  case_bool_decide; [reflexivity|].
  destruct (select_mode _ _ _) as [combined_df banner].
  destruct (auto_adjust_column_width h) as [msgs [e|]]; simpl; intros Hin;
    repeat (apply elem_of_cons in Hin as [Hin | Hin]; [discriminate|]);
    inversion Hin.
Qed.

(** C6, as the code has it: in overwrite mode the table before
    deduplication is [new_data], whatever the master file holds; in append
    mode it is the rows of the master file followed by [new_data] when the
    master file exists, and when it does not the run writes the same file
    and ends the same way as in overwrite mode, and prints the same lines
    but for the overwrite banner. *)
Theorem mode_selects_table (w : world) (h : host) (mode : str) (nd : table) :
  new_data w = Some nd ->
  let pre := (select_mode mode (master w) nd).1 in
  let r := merge_estimates w h mode in
  master (after r) = Some (deduplicate pre)
  /\ (Text.lower mode = lit "overwrite" -> pre = nd)
  /\ (Text.lower mode = lit "append" ->
      forall existing, master w = Some existing -> pre = existing ++ nd)
  /\ (Text.lower mode = lit "append" -> master w = None ->
      let r' := merge_estimates w h (lit "overwrite") in
      pre = nd /\ after r = after r' /\ exit r = exit r'
      /\ exists out rest,
           console r' = out ++ OverwriteBanner :: rest
           /\ console r = out ++ rest).
Proof.
  intros Hnd pre r. subst pre r. rewrite select_mode_combined.
  split; [now rewrite (merge_estimates_writes w h mode nd Hnd)|].
  split; [|split].
  - intros Hm. unfold combined. rewrite Hm.
    destruct (master w); reflexivity.
  - intros Hm existing ->. unfold combined. now rewrite Hm, bool_decide_eq_true_2.
  - intros Hm Hnone r'. subst r'.
    split; [now rewrite Hnone|].
    split; [rewrite !(merge_estimates_writes _ _ _ nd Hnd), Hnone; reflexivity|].
    revert Hnd. unfold new_data, merge_estimates, input_files.
    destruct (config w) as [| |categories]; [discriminate..|].
    destruct (process_files _ _ _ _) as [[st out] [e|]] eqn:Hrun; [discriminate|].
    case_bool_decide as Hcd; [discriminate|]. intros _.
    case_bool_decide as Hfiles.
    { rewrite Hfiles in Hrun. simpl in Hrun. injection Hrun as <- _.
      now contradiction Hcd. }
    unfold select_mode. rewrite Hnone, Hm. simpl.
    destruct (auto_adjust_column_width h) as [msgs [e|]]; simpl.
    + split; [reflexivity|]. eexists out, _. split.
      * rewrite <- !app_assoc. reflexivity.
      * rewrite <- !app_assoc. reflexivity.
    + split; [reflexivity|]. eexists out, _. split.
      * rewrite <- !app_assoc. reflexivity.
      * rewrite <- !app_assoc. reflexivity.
Qed.

Lemma mode_selects_table_witness :
  new_data repeated_world
  = Some [wire (Finite 5629499534213120 (-52)) (lit "ElectricalBid.csv");
          wire (Finite 5854679515581645 (-52)) (lit "ElectricalBid.csv")]
  /\ (select_mode (lit "Append") (master repeated_world)
        [wire (Finite 5629499534213120 (-52)) (lit "ElectricalBid.csv");
         wire (Finite 5854679515581645 (-52)) (lit "ElectricalBid.csv")]).1
     = repeated_master
         ++ [wire (Finite 5629499534213120 (-52)) (lit "ElectricalBid.csv");
             wire (Finite 5854679515581645 (-52)) (lit "ElectricalBid.csv")].
Proof.
  assert (Hnd : new_data repeated_world
    = Some [wire (Finite 5629499534213120 (-52)) (lit "ElectricalBid.csv");
            wire (Finite 5854679515581645 (-52)) (lit "ElectricalBid.csv")])
    by (vm_compute; reflexivity).
  split; [exact Hnd|].
  apply (proj1 (proj2 (proj2 (mode_selects_table repeated_world sample_host
                                (lit "Append") _ Hnd)))).
  - vm_compute; reflexivity.
  - reflexivity.
Defined.

(** C6 as it is written fails in its last part: with no master file an
    append run does not print what an overwrite run prints.  The line that
    announces the rebuilding is printed when the mode is overwrite and not
    otherwise. *)
Lemma append_without_master_skips_banner :
  master sample_world = None
  /\ console (merge_estimates sample_world sample_host (lit "overwrite"))
     = [Processed (lit "ElectricalBid.csv") 2 (lit "Electrical");
        SkippingMissingColumns (lit "notes.csv");
        OverwriteBanner; Summary 1 2 1 1; MasterSaved; WidthsAdjusted; OpenedMaster]
  /\ console (merge_estimates sample_world sample_host (lit "append"))
     = [Processed (lit "ElectricalBid.csv") 2 (lit "Electrical");
        SkippingMissingColumns (lit "notes.csv");
        Summary 1 2 1 1; MasterSaved; WidthsAdjusted; OpenedMaster]
  /\ console (merge_estimates sample_world sample_host (lit "append"))
     <> console (merge_estimates sample_world sample_host (lit "overwrite")).
Proof.
  split; [reflexivity|]. split; [vm_compute; reflexivity|].
  split; [vm_compute; reflexivity|]. vm_compute. discriminate.
Qed.

(** ** Append mode *)

(** C7, as the code has it: after an append run over an existing master
    file whose categories and descriptions are read back as texts, the
    keys of the master file are the keys it had together with the keys of
    the new rows, and no two rows written have the same key; its number of
    rows does not decrease when no two rows of the existing master file
    had the same key. *)
Theorem append_keys_union (w : world) (h : host) (mode : str) (existing nd : table) :
  Text.lower mode = lit "append" ->
  master w = Some existing ->
  Forall read_as_text existing ->
  new_data w = Some nd ->
  exists written,
    master (after (merge_estimates w h mode)) = Some written
    /\ keys written = keys existing ∪ keys nd
    /\ NoDup (key <$> written)
    /\ (NoDup (key <$> existing) -> (length existing <= length written)%nat).
Proof.
  intros Hm He _ Hnd. exists (deduplicate (existing ++ nd)).
  rewrite (merge_estimates_writes w h mode nd Hnd), He. unfold combined.
  rewrite Hm, bool_decide_eq_true_2 by reflexivity. simpl.
  split; [reflexivity|]. split; [|split].
  - rewrite deduplicate_keys. unfold keys. now rewrite fmap_app, list_to_set_app_L.
  - apply deduplicate_NoDup.
  - apply deduplicate_app_length.
Qed.

Lemma append_keys_union_witness :
  exists written,
    master (after (merge_estimates
      (World (ConfigOk sample_categories) (Some [electrical_bid])
             (Some [wire (Finite 1 0) (lit "old.csv")]))
      sample_host (lit "append"))) = Some written
    /\ (1 <= length written)%nat.
Proof.
  destruct (append_keys_union
    (World (ConfigOk sample_categories) (Some [electrical_bid])
           (Some [wire (Finite 1 0) (lit "old.csv")]))
    sample_host (lit "append")
    [wire (Finite 1 0) (lit "old.csv")]
    [wire (Finite 5629499534213120 (-52)) (lit "ElectricalBid.csv");
     wire (Finite 5854679515581645 (-52)) (lit "ElectricalBid.csv")])
    as (written & Hw & _ & _ & Hlen).
  - reflexivity.
  - reflexivity.
  - repeat constructor. eexists _, _. split; reflexivity.
  - vm_compute; reflexivity.
  - exists written. split; [exact Hw|].
    apply Hlen. simpl. apply NoDup_singleton.
Defined.

(** C7 as it is written fails: over a master file in which two rows have
    the same key, both with texts for category and description, an append
    run writes fewer rows than the file had. *)
Lemma append_can_shrink_master :
  master repeated_world = Some repeated_master
  /\ Forall read_as_text repeated_master
  /\ master (after (merge_estimates repeated_world sample_host (lit "append")))
     = Some [wire (Finite 1 0) (lit "old.csv")]
  /\ ~ (length repeated_master
        <= length [wire (Finite 1 0) (lit "old.csv")])%nat.
Proof.
  split; [reflexivity|].
  split; [repeat constructor; eexists _, _; split; reflexivity|].
  split; [vm_compute; reflexivity|]. simpl. lia.
Qed.

(** ** Overwrite mode *)

Lemma select_mode_overwrite mode existing existing' nd :
  Text.lower mode = lit "overwrite" ->
  select_mode mode existing nd = select_mode mode existing' nd.
Proof.
  intros Hm. unfold select_mode. rewrite Hm.
  rewrite (bool_decide_eq_false_2 (lit "overwrite" = lit "append")) by discriminate.
  reflexivity.
Qed.

(** In overwrite mode the run reads nothing of the master file: over two
    worlds that differ in it only, the runs print the same lines and end
    the same way, and what they write, if they write, is the same. *)
Lemma overwrite_ignores_master cfg dir m m' h mode :
  Text.lower mode = lit "overwrite" ->
  let r := merge_estimates (World cfg (Some dir) m) h mode in
  let r' := merge_estimates (World cfg (Some dir) m') h mode in
  console r' = console r /\ exit r' = exit r
  /\ (new_data (World cfg (Some dir) m) = None -> after r = World cfg (Some dir) m)
  /\ (new_data (World cfg (Some dir) m) = None -> after r' = World cfg (Some dir) m')
  /\ (is_Some (new_data (World cfg (Some dir) m)) -> after r' = after r).
Proof.
  intros Hm. unfold merge_estimates, new_data, input_files. simpl.
  destruct cfg as [| |categories]; simpl.
  1,2: repeat split; intros [? ?]; discriminate.
  case_bool_decide as Hfiles; simpl.
  { rewrite Hfiles. simpl. repeat split. intros [? ?]; discriminate. }
  destruct (process_files _ _ _ _) as [[st out] [e|]]; simpl.
  { repeat split. intros [? ?]; discriminate. }
  case_bool_decide; simpl.
  { repeat split. intros [? ?]; discriminate. }
  rewrite (select_mode_overwrite mode m' m _ Hm).
  destruct (select_mode _ _ _) as [combined_df banner].
  destruct (auto_adjust_column_width h) as [msgs [e|]]; simpl;
    repeat split; discriminate.
Qed.

(** C8: two runs in overwrite mode over the same inputs leave the same
    master file, row for row; on the same host they also print the same
    lines and end the same way. *)
Theorem overwrite_twice_same_table (w : world) (h1 h2 : host) (mode : str) :
  Text.lower mode = lit "overwrite" ->
  let first := merge_estimates w h1 mode in
  let second := merge_estimates (after first) h2 mode in
  master (after second) = master (after first)
  /\ after second = after first
  /\ (h1 = h2 -> console second = console first /\ exit second = exit first).
Proof.
  intros Hm first second.
  assert (Hshape : exists m1,
    after first = World (config w) (Some (default [] (input_dir w))) m1).
  { subst first. destruct (new_data w) as [nd|] eqn:Hnd.
    - rewrite (merge_estimates_writes w h1 mode nd Hnd). eauto.
    - exists (master w). unfold merge_estimates.
      revert Hnd. unfold new_data, input_files.
      destruct (config w) as [| |categories]; [reflexivity..|].
      case_bool_decide; [reflexivity|].
      destruct (process_files _ _ _ _) as [[st out] [e|]]; [reflexivity|].
      case_bool_decide; [reflexivity | discriminate]. }
  destruct Hshape as [m1 Hshape].
  assert (Hsame : new_data (after first) = new_data w).
  { rewrite Hshape. unfold new_data, input_files. reflexivity. }
  assert (Hafter : after second = after first).
  { subst second. destruct (new_data w) as [nd|] eqn:Hnd.
    - rewrite (merge_estimates_writes _ h2 mode nd Hsame).
      subst first. rewrite (merge_estimates_writes w h1 mode nd Hnd). simpl.
      unfold combined. rewrite Hm.
      rewrite (bool_decide_eq_false_2 (lit "overwrite" = lit "append")) by discriminate.
      destruct (master w); reflexivity.
    - rewrite Hshape.
      apply (overwrite_ignores_master (config w) _ m1 m1 h2 mode Hm).
      now rewrite <- Hshape. }
  split; [now rewrite Hafter|]. split; [exact Hafter|].
  intros <-. subst second. rewrite Hshape. subst first.
  assert (Hw : merge_estimates w h1 mode
    = merge_estimates (World (config w) (Some (default [] (input_dir w))) (master w)) h1 mode)
    by reflexivity.
  rewrite Hw.
  destruct (overwrite_ignores_master (config w) (default [] (input_dir w))
              (master w) m1 h1 mode Hm) as (Hc & He & _).
  split; assumption.
Qed.

Lemma overwrite_twice_same_table_witness :
  master (after (merge_estimates
                   (after (merge_estimates sample_world sample_host (lit "overwrite")))
                   (Host true false) (lit "overwrite")))
  = Some [wire (Finite 5629499534213120 (-52)) (lit "ElectricalBid.csv")].
Proof.
  refine (eq_trans (proj1 (overwrite_twice_same_table sample_world sample_host
                             (Host true false) (lit "overwrite") _)) _).
  - reflexivity.
  - vm_compute; reflexivity.
Defined.

(** ** Frames *)

Section frames.
Context {A : Type}.
Implicit Types (df : frame A) (l : str) (v : list A).

Lemma labels_rename_labels (f : str -> str) df :
  labels (rename_labels f df) = f <$> labels df.
Proof.
  unfold labels, rename_labels. induction df as [|c df IH]; csimpl; [reflexivity|].
  f_equal. exact IH.
Qed.

Lemma rename_labels_compose (f g : str -> str) df :
  rename_labels g (rename_labels f df) = rename_labels (fun l => g (f l)) df.
Proof.
  unfold rename_labels. induction df as [|c df IH]; csimpl; [reflexivity|].
  f_equal. exact IH.
Qed.

Lemma rename_labels_ext (f g : str -> str) df :
  (forall l, l ∈ labels df -> f l = g l) ->
  rename_labels f df = rename_labels g df.
Proof.
  unfold rename_labels, labels. induction df as [|c df IH]; csimpl; intros Hfg.
  - reflexivity.
  - rewrite Hfg by left. f_equal. apply IH. intros l Hl. apply Hfg. now right.
Qed.




Lemma select_not_in l df : l ∉ labels df -> select l df = [].
Proof.
  unfold select, labels. induction df as [|c df IH]; csimpl; intros Hl; [reflexivity|].
  rewrite not_elem_of_cons in Hl. destruct Hl as [Hne Hl].
  rewrite filter_cons_False by congruence. now apply IH.
Qed.



Lemma select_set_column_fresh l v df :
  l ∉ labels df -> select l (set_column l v df) = [v].
Proof.
  intros Hin. unfold set_column. rewrite (bool_decide_eq_false_2 _ Hin).
  unfold select. rewrite filter_app, fmap_app.
  fold (select l df). rewrite (select_not_in l df Hin).
  now rewrite filter_cons_True by reflexivity.
Qed.


End frames.



(** Lines 103-105 give every column the label [final_label] computes. *)
Lemma relabel_steps (df : frame raw) :
  (if bool_decide (l_item_description
                   ∈ labels (rename_labels (fun l => Text.lower (Text.strip l)) df))
   then rename_labels
          (fun l => if bool_decide (l = l_item_description) then l_description else l)
          (rename_labels (fun l => Text.lower (Text.strip l)) df)
   else rename_labels (fun l => Text.lower (Text.strip l)) df) = relabelled df.
Proof.
  unfold relabelled. case_bool_decide as Hin.
  - rewrite rename_labels_compose. reflexivity.
  - apply rename_labels_ext. intros l Hl. unfold final_label.
    rewrite bool_decide_eq_false_2; [reflexivity|].
    intros Heq. apply Hin. rewrite labels_rename_labels, <- Heq.
    apply list_elem_of_fmap. eauto.
Qed.

(** ** Cleaning *)

Lemma clean_dataframe_cases df source cat :
  cleaning df source cat (clean_dataframe df source cat).
Proof.
  unfold clean_dataframe. cbv zeta. rewrite relabel_steps.
  destruct (bool_decide (l_description ∈ labels (relabelled df))) eqn:Hd; simpl.
  - destruct (bool_decide (l_unit_cost ∈ labels (relabelled df))) eqn:Hc; simpl.
    + destruct (select l_description (relabelled df)) as [|descs [|? ?]] eqn:Hsd.
      * apply CleanRepeatedDescription. rewrite Hsd. discriminate.
      * destruct (select l_unit_cost (relabelled df)) as [|costs [|? ?]] eqn:Hsc.
        -- apply CleanRepeatedCost; [assumption | rewrite Hsc; discriminate].
        -- destruct (mapM clean_cost costs) as [costs'|] eqn:Hm.
           ++ now apply (CleanAccepted _ _ _ descs costs costs').
           ++ now apply (CleanBadCost _ _ _ descs costs).
        -- apply CleanRepeatedCost; [assumption | rewrite Hsc; discriminate].
      * apply CleanRepeatedDescription. rewrite Hsd. discriminate.
    + apply CleanRejected. right. now apply bool_decide_eq_false in Hc.
  - apply CleanRejected. left. now apply bool_decide_eq_false in Hd.
Qed.




(** ** Costs *)

Lemma round_half_even_nonneg a b : 0 <= a -> 0 < b -> 0 <= Float.round_half_even a b.
Proof.
  intros Ha Hb. unfold Float.round_half_even.
  pose proof (Z.div_pos a b Ha Hb).
  repeat match goal with |- context [if ?c then _ else _] => destruct c end; lia.
Qed.

Lemma scaled_signs n d e a b :
  0 <= n -> 0 < d -> Float.scaled n d e = (a, b) -> 0 <= a /\ 0 < b.
Proof.
  intros Hn Hd. unfold Float.scaled. destruct (0 <=? e) eqn:He; intros [= <- <-].
  - apply Z.leb_le in He. split; [exact Hn|].
    apply Z.mul_pos_pos; [exact Hd | apply Z.pow_pos_nonneg; lia].
  - apply Z.leb_gt in He. split; [|exact Hd].
    apply Z.mul_nonneg_nonneg; [exact Hn | apply Z.pow_nonneg; lia].
Qed.

Lemma of_ratio_nonneg n d : 0 <= n -> 0 < d -> nonneg (Float.of_ratio n d).
Proof.
  intros Hn Hd. unfold Float.of_ratio.
  destruct (n =? 0); [simpl; lia|].
  destruct (Float.scaled n d (Z.log2 n - Z.log2 d - 53)) as [a1 b1].
  destruct (Float.scaled n d _) as [a b] eqn:Hs.
  apply (scaled_signs n d _ a b Hn Hd) in Hs as [Ha Hb].
  pose proof (round_half_even_nonneg a b Ha Hb) as Hm.
  destruct (Float.round_half_even a b =? 2 ^ 53).
  - destruct (971 <? _); simpl; [exact I | lia].
  - destruct (971 <? _); simpl; [exact I | exact Hm].
Qed.

Lemma digits_value_nonneg ds :
  forallb Text.is_digit ds = true -> 0 <= Float.digits_value ds.
Proof.
  unfold Float.digits_value.
  assert (Hgen : forall acc, 0 <= acc -> forallb Text.is_digit ds = true ->
            0 <= fold_left (fun acc c => 10 * acc + Float.digit_value c) ds acc).
  { induction ds as [|c ds IH]; simpl; intros acc Hacc Hall; [exact Hacc|].
    apply andb_true_iff in Hall as [Hc Hall]. apply IH; [|exact Hall].
    unfold Text.is_digit in Hc. apply andb_true_iff in Hc as [Hlo _].
    apply N.leb_le in Hlo. unfold Float.digit_value. lia. }
  apply Hgen. lia.
Qed.

Lemma of_text_nonneg s f : Float.of_text s = Some f -> nonneg f.
Proof.
  unfold Float.of_text. destruct (Float.split_dot s) as [ip [fp|]].
  - destruct (forallb Text.is_digit ip) eqn:Hip; [|discriminate].
    destruct (forallb Text.is_digit fp) eqn:Hfp; [|discriminate].
    destruct (negb _); [|discriminate]. intros [= <-].
    apply of_ratio_nonneg.
    + apply digits_value_nonneg. rewrite forallb_app, Hip, Hfp. reflexivity.
    + apply Z.pow_pos_nonneg; lia.
  - destruct (forallb Text.is_digit ip) eqn:Hip; [|discriminate].
    destruct (negb _); [|discriminate]. intros [= <-].
    apply of_ratio_nonneg; [now apply digits_value_nonneg | lia].
Qed.

Lemma digit_not_dot c : Text.is_digit c = true -> Text.is_dot c = false.
Proof.
  unfold Text.is_digit, Text.is_dot. intros [Hlo _]%andb_true_iff.
  apply N.leb_le in Hlo. apply N.eqb_neq. lia.
Qed.

Lemma uint_text_digits d :
  forallb Text.is_digit (lit (NilEmpty.string_of_uint d)) = true.
Proof. induction d; simpl; auto. Qed.

Lemma uint_text_fold d acc :
  fold_left (fun a c => 10 * a + Float.digit_value c)
            (lit (NilEmpty.string_of_uint d))
            (Z.of_N (DecimalPos.Unsigned.of_lu acc))
  = Z.of_N (DecimalPos.Unsigned.of_lu (Decimal.revapp d acc)).
Proof.
  revert acc; induction d; intros acc; simpl; [reflexivity|..];
    rewrite <- IHd; f_equal; cbn [DecimalPos.Unsigned.of_lu];
    unfold Float.digit_value; simpl; lia.
Qed.

Lemma uint_text_value d :
  Float.digits_value (lit (NilEmpty.string_of_uint d)) = Z.of_N (Pos.of_uint d).
Proof.
  unfold Float.digits_value.
  rewrite DecimalPos.Unsigned.of_uint_alt.
  exact (uint_text_fold d Decimal.Nil).
Qed.

Lemma split_dot_digits s :
  forallb Text.is_digit s = true -> Float.split_dot s = (s, None).
Proof.
  induction s as [|c s IH]; simpl; [reflexivity|].
  intros [Hc Hs]%andb_true_iff.
  now rewrite (digit_not_dot c Hc), (IH Hs).
Qed.

Lemma filter_digits s :
  forallb Text.is_digit s = true -> strip_non_numeric s = s.
Proof.
  unfold strip_non_numeric. induction s as [|c s IH]; [reflexivity|]. simpl forallb.
  intros [Hc Hs]%andb_true_iff.
  rewrite filter_cons_True by (rewrite Hc; exact I). now rewrite (IH Hs).
Qed.

Lemma digits_cost s :
  s <> [] -> forallb Text.is_digit s = true ->
  Float.of_text (empty_to_zero (strip_non_numeric s))
  = Some (Float.of_ratio (Float.digits_value s) 1).
Proof.
  intros Hne Hall. rewrite (filter_digits s Hall). unfold empty_to_zero.
  rewrite (bool_decide_eq_false_2 _ Hne). unfold Float.of_text.
  rewrite (split_dot_digits s Hall), Hall, (bool_decide_eq_false_2 _ Hne).
  reflexivity.
Qed.

Lemma to_uint_text p :
  lit (NilZero.string_of_uint (Pos.to_uint p))
  = lit (NilEmpty.string_of_uint (Pos.to_uint p))
  /\ lit (NilEmpty.string_of_uint (Pos.to_uint p)) <> [].
Proof.
  pose proof (DecimalPos.Unsigned.to_uint_nonnil p) as Hnn.
  destruct (Pos.to_uint p); [contradiction|..]; split; first [reflexivity | discriminate].
Qed.

Lemma positive_cost p :
  Float.of_text (empty_to_zero (strip_non_numeric
                   (lit (NilZero.string_of_uint (Pos.to_uint p)))))
  = Some (Float.of_ratio (Z.pos p) 1).
Proof.
  destruct (to_uint_text p) as [-> Hne].
  rewrite (digits_cost _ Hne (uint_text_digits _)), uint_text_value.
  now rewrite DecimalPos.Unsigned.of_to.
Qed.

Lemma clean_cost_int z : clean_cost (RInt z) = Some (Float.of_ratio (Z.abs z) 1).
Proof.
  destruct z as [|p|p]; unfold clean_cost, astype_str.
  - reflexivity.
  - apply positive_cost.
  - simpl Z.to_int. cbn [NilZero.string_of_int].
    change (lit (String "-" ?s)) with ("-"%char :: lit s).
    unfold strip_non_numeric at 1. rewrite filter_cons_False by (simpl; tauto).
    apply positive_cost.
Qed.

Lemma clean_cost_nonneg c f : c <> RMissing -> clean_cost c = Some f -> nonneg f.
Proof.
  unfold clean_cost. destruct c; simpl; intros Hne;
    [apply of_text_nonneg.. | now contradiction Hne].
Qed.

Lemma clean_cost_sign c f : clean_cost c = Some f -> nonneg f \/ f = NaN.
Proof.
  destruct c; try (intros Hc; left; revert Hc; now apply clean_cost_nonneg).
  intros [= <-]. now right.
Qed.

Lemma strip_non_numeric_chars s c :
  c ∈ strip_non_numeric s -> Text.is_digit c || Text.is_dot c = true.
Proof.
  unfold strip_non_numeric. intros [Hc _]%list_elem_of_filter.
  now apply Is_true_true.
Qed.

Lemma digit_or_dot c :
  Text.is_digit c || Text.is_dot c = bool_decide (c ∈ lit "0123456789.").
Proof. destruct c as [[] [] [] [] [] [] [] []]; vm_compute; reflexivity. Qed.

Lemma strip_non_numeric_digits_and_dots s : strip_non_numeric s = digits_and_dots s.
Proof.
  unfold strip_non_numeric. induction s as [|c s IH]; [reflexivity|].
  rewrite filter_cons. cbn [digits_and_dots]. rewrite <- digit_or_dot, <- IH.
  destruct (decide (Text.is_digit c || Text.is_dot c)) as [Hc|Hc].
  - now rewrite (Is_true_true_1 _ Hc).
  - now rewrite (Is_true_false_1 _ Hc).
Qed.

Lemma cleaned_rows_from_cells df source cat t :
  returned (clean_dataframe df source cat) = Return (Some t) ->
  exists costs,
    select l_unit_cost (relabelled df) = [costs]
    /\ Forall (fun r => exists x, x ∈ costs
                          /\ clean_cost x = Some (unit_cost r)
                          /\ (x <> RMissing -> nonneg (unit_cost r))) t.
Proof.
  destruct (clean_dataframe_cases df source cat)
    as [Hmiss | Hrep | descs Hsd Hrep | descs costs Hsd Hsc Hm
        | descs costs costs' Hsd Hsc Hm]; simpl; try discriminate.
  intros [= <-]. exists costs. split; [exact Hsc|].
  apply Forall_forall. intros r Hr.
  apply elem_of_zip_with in Hr as (d & y & -> & _ & Hy). simpl.
  apply mapM_Some in Hm.
  apply list_elem_of_lookup in Hy as [i Hi].
  destruct (Forall2_lookup_r _ _ _ _ _ Hm Hi) as (x & Hx & Hxy).
  exists x. split; [apply list_elem_of_lookup; eauto|].
  split; [exact Hxy|]. intros Hne. now apply (clean_cost_nonneg x).
Qed.

Lemma elem_of_concat {A} (x : A) (ls : list (list A)) :
  x ∈ concat ls <-> exists l, x ∈ l /\ l ∈ ls.
Proof.
  rewrite list_elem_of_In, in_concat. split.
  - intros (l & Hl & Hx). exists l. now rewrite !list_elem_of_In.
  - intros (l & Hx & Hl). exists l. now rewrite <- !list_elem_of_In.
Qed.

Lemma new_data_rows_sign w nd :
  new_data w = Some nd ->
  Forall (fun r => nonneg (unit_cost r) \/ unit_cost r = NaN) nd.
Proof.
  intros Hnd. destruct (config w) as [| |categories] eqn:Hc;
    try (unfold new_data in Hnd; rewrite Hc in Hnd; discriminate).
  rewrite (new_data_in_file_order w categories nd Hc Hnd).
  apply Forall_forall. intros r Hr.
  apply elem_of_concat in Hr as (t & Hr & Ht).
  apply list_elem_of_omap in Ht as (f & _ & Hf).
  unfold cleaned_table in Hf.
  destruct (content f) as [df|]; [|discriminate].
  destruct (returned _) as [[t'|]|e] eqn:Hret; try discriminate.
  injection Hf as ->.
  destruct (cleaned_rows_from_cells _ _ _ _ Hret) as (costs & _ & Hall).
  rewrite Forall_forall in Hall.
  destruct (Hall r Hr) as (x & _ & Hx & _). now apply (clean_cost_sign x).
Qed.

(** C2, as the code has it: the cost of a cell that holds a text is
    [float()] of its digits and dots, ["0"] standing for none; a float
    cell is read through the text that shows it, and an integer cell [z],
    whose text is its decimal writing, gives the float nearest to [|z|].
    The cost of a cell that is not missing is never negative.  Every cost
    of a table [clean_dataframe] returns is the cost of a cell of the cost
    column; a cost in the master file a run wrote is not negative, or is
    the NaN of a missing cell, or stands in a row taken as it was from the
    existing master file. *)
Theorem cleaned_costs_nonneg :
  (forall s : str,
      clean_cost (RStr s)
      = Float.of_text (if bool_decide (digits_and_dots s = []) then lit "0"
                       else digits_and_dots s))
  /\ (forall shown : str, clean_cost (RFloat shown) = clean_cost (RStr shown))
  /\ (forall z : Z, clean_cost (RInt z) = Some (Float.of_ratio (Z.abs z) 1))
  /\ (forall (c : raw) (f : float64),
        c <> RMissing -> clean_cost c = Some f -> nonneg f)
  /\ (forall df source cat t,
        returned (clean_dataframe df source cat) = Return (Some t) ->
        exists costs,
          select l_unit_cost (relabelled df) = [costs]
          /\ Forall (fun r => exists x, x ∈ costs
                                /\ clean_cost x = Some (unit_cost r)
                                /\ (x <> RMissing -> nonneg (unit_cost r))) t)
  /\ (forall w h mode written,
        master (after (merge_estimates w h mode)) = Some written ->
        Forall (fun r => nonneg (unit_cost r) \/ unit_cost r = NaN
                         \/ exists old, master w = Some old /\ r ∈ old) written).
Proof.
  split; [|split; [|split; [|split; [|split]]]].
  - intros s. unfold clean_cost, astype_str, empty_to_zero.
    now rewrite strip_non_numeric_digits_and_dots.
  - reflexivity.
  - apply clean_cost_int.
  - apply clean_cost_nonneg.
  - apply cleaned_rows_from_cells.
  - intros w h mode written Hw. apply Forall_forall. intros r Hr.
    destruct (new_data w) as [nd|] eqn:Hnd.
    + rewrite (merge_estimates_writes w h mode nd Hnd) in Hw. simpl in Hw.
      injection Hw as <-.
      pose proof (elem_of_sublist _ _ r Hr (deduplicate_sublist _)) as Hin.
      pose proof (new_data_rows_sign w nd Hnd) as Hall.
      rewrite Forall_forall in Hall.
      assert (Hnew : r ∈ nd -> nonneg (unit_cost r) \/ unit_cost r = NaN
                               \/ exists old, master w = Some old /\ r ∈ old)
        by (intros Hr'; destruct (Hall r Hr'); tauto).
      unfold combined in Hin. destruct (master w) as [old|].
      * case_bool_decide.
        -- apply elem_of_app in Hin as [Hin | Hin]; [right; right; eauto | auto].
        -- auto.
      * auto.
    + rewrite (merge_estimates_keeps w h mode Hnd) in Hw.
      right. right. exists written. split; assumption.
Qed.

Lemma cleaned_costs_nonneg_witness :
  clean_cost (RStr (lit "$1,234.56")) = Some (Finite 5429652300748554 (-42))
  /\ nonneg (Finite 5429652300748554 (-42))
  /\ clean_cost (RStr (lit "call us")) = Some (Finite 0 0)
  /\ clean_cost (RInt (-15)) = Some (Finite 8444249301319680 (-49)).
Proof.
  destruct cleaned_costs_nonneg as (Htext & _ & Hint & Hsign & _).
  assert (Hc : clean_cost (RStr (lit "$1,234.56")) = Some (Finite 5429652300748554 (-42)))
    by (rewrite Htext; vm_compute; reflexivity).
  split; [exact Hc|]. split; [|split].
  - apply (Hsign (RStr (lit "$1,234.56"))); [discriminate | exact Hc].
  - rewrite Htext. vm_compute. reflexivity.
  - rewrite Hint. vm_compute. reflexivity.
Defined.

(** C2 as it is written fails on two sides.  A missing cell is not cast
    to a text: it stays missing and its cost is NaN.  And the costs of the
    rows an append run takes from the existing master file are written as
    they were read: a negative one stays in the file. *)
Lemma negative_cost_survives_append :
  astype_str RMissing = None
  /\ clean_cost RMissing = Some NaN
  /\ ~ nonneg NaN
  /\ master credit_world = Some [credit_note]
  /\ master (after (merge_estimates credit_world sample_host (lit "append")))
     = Some [credit_note; wire (Finite 5629499534213120 (-52)) (lit "ElectricalBid.csv")]
  /\ unit_cost credit_note = Finite (-5) 0
  /\ ~ nonneg (unit_cost credit_note).
Proof.
  split; [reflexivity|]. split; [reflexivity|]. split; [simpl; tauto|].
  split; [reflexivity|]. split; [vm_compute; reflexivity|].
  split; [reflexivity|]. simpl. lia.
Qed.

(** ** Which texts [float()] reads *)

Lemma count_if_cons p c s :
  count_if p (c :: s) = if p c then S (count_if p s) else count_if p s.
Proof.
  unfold count_if. rewrite filter_cons.
  destruct (p c); reflexivity.
Qed.

Lemma all_digits_counts t :
  (forall c, c ∈ t -> Text.is_digit c || Text.is_dot c = true) ->
  (forallb Text.is_digit t = true <-> count_if Text.is_dot t = 0%nat)
  /\ (forallb Text.is_digit t = true -> count_if Text.is_digit t = length t).
Proof.
  induction t as [|c t IH]; intros Hnum.
  - split; [split|]; reflexivity.
  - destruct IH as [IH1 IH2]; [intros x Hx; apply Hnum; now right|].
    assert (Hc : Text.is_digit c || Text.is_dot c = true) by (apply Hnum; left).
    rewrite !count_if_cons. simpl.
    destruct (Text.is_digit c) eqn:Hd; simpl in *.
    + rewrite (digit_not_dot c Hd). split; [exact IH1|].
      intros Hall. now rewrite IH2.
    + rewrite Hc. split; [split; discriminate | discriminate].
Qed.

Lemma split_dot_counts s ip fp :
  (forall c, c ∈ s -> Text.is_digit c || Text.is_dot c = true) ->
  Float.split_dot s = (ip, fp) ->
  forallb Text.is_digit ip = true
  /\ count_if Text.is_digit s
     = (length ip + from_option (count_if Text.is_digit) 0 fp)%nat
  /\ count_if Text.is_dot s
     = from_option (fun t => S (count_if Text.is_dot t)) 0%nat fp
  /\ (forall t, fp = Some t ->
      forall c, c ∈ t -> Text.is_digit c || Text.is_dot c = true).
Proof.
  revert ip fp; induction s as [|c s IH]; intros ip fp Hnum; simpl.
  - intros [= <- <-]. repeat split. discriminate.
  - assert (Hc : Text.is_digit c || Text.is_dot c = true) by (apply Hnum; left).
    assert (Hs : forall x, x ∈ s -> Text.is_digit x || Text.is_dot x = true)
      by (intros x Hx; apply Hnum; now right).
    rewrite !count_if_cons.
    destruct (Text.is_dot c) eqn:Hdot.
    + intros [= <- <-]. simpl.
      destruct (Text.is_digit c) eqn:Hd;
        [apply digit_not_dot in Hd; congruence|].
      repeat split. intros t [= <-]. exact Hs.
    + destruct (Float.split_dot s) as [ip' fp'] eqn:Hsplit.
      intros [= <- <-].
      destruct (IH ip' fp' Hs eq_refl) as (H1 & H2 & H3 & H4).
      rewrite orb_false_r in Hc. rewrite Hc. simpl. rewrite Hc, H1, H2, H3.
      repeat split. exact H4.
Qed.

Lemma of_text_reads s :
  (forall c, c ∈ s -> Text.is_digit c || Text.is_dot c = true) ->
  is_Some (Float.of_text s) <-> decimal_numeral s.
Proof.
  intros Hnum. unfold Float.of_text, decimal_numeral.
  destruct (Float.split_dot s) as [ip [fp|]] eqn:Hsplit;
    destruct (split_dot_counts s _ _ Hnum Hsplit) as (Hip & Hdig & Hdot & Hfp);
    rewrite Hip, Hdig, Hdot; simpl.
  - destruct (all_digits_counts fp (Hfp fp eq_refl)) as [Hiff Hlen].
    destruct (forallb Text.is_digit fp) eqn:Hall; simpl.
    + rewrite (Hlen eq_refl). rewrite (proj1 Hiff eq_refl).
      destruct ip as [|a ip]; destruct fp as [|b fp]; simpl;
        (split;
         [intros H; try (destruct H as [? H]; discriminate H); split; lia
         |intros [? ?]; try lia; eauto]).
    + split; [intros [? [=]]|]. intros [_ Hle].
      assert (count_if Text.is_dot fp = 0%nat) as H0 by lia.
      apply Hiff in H0. discriminate.
  - destruct ip as [|a ip]; simpl;
      (split;
       [intros H; try (destruct H as [? H]; discriminate H); split; lia
       |intros [? ?]; try lia; eauto]).
Qed.

Lemma clean_cost_reads (c : raw) :
  is_Some (clean_cost c) <-> readable_cell c.
Proof.
  unfold clean_cost, readable_cell, cost_text.
  destruct (astype_str c) as [s|]; simpl; [|split; eauto].
  unfold readable, empty_to_zero. case_bool_decide as He.
  - split; [now left|]. intros _. vm_compute. eauto.
  - rewrite of_text_reads by apply strip_non_numeric_chars. tauto.
Qed.

(** Which cost cells are read: a missing one, and one whose cleaned text
    is empty or holds one digit at least and one dot at most; digits
    scattered in the cell are then read as one number and the rows of the
    file are kept.  A cleaned text with two dots or more, or with a dot
    and no digit, makes [float()] raise [ValueError], which
    [clean_dataframe] lets through: it returns no table. *)
Lemma cost_text_policy :
  (forall c : raw, is_Some (clean_cost c) <-> readable_cell c)
  /\ (forall df source cat descs costs,
        select l_description (relabelled df) = [descs] ->
        select l_unit_cost (relabelled df) = [costs] ->
        (Forall readable_cell costs ->
         exists costs',
           mapM clean_cost costs = Some costs'
           /\ returned (clean_dataframe df source cat)
              = Return (Some (zip_with (fun d c => Row (VText cat) d c source)
                                       (clean_description <$> descs) costs')))
        /\ (~ Forall readable_cell costs ->
            returned (clean_dataframe df source cat) = Raise ValueError)).
Proof.
  split; [exact clean_cost_reads|].
  intros df source cat descs costs Hsd Hsc.
  assert (Hiff : is_Some (mapM clean_cost costs) <-> Forall readable_cell costs).
  { rewrite mapM_is_Some. apply Forall_iff. intros x. apply clean_cost_reads. }
  destruct (clean_dataframe_cases df source cat)
    as [[Hmiss | Hmiss] | Hrep | descs0 Hsd0 Hrep | descs0 costs0 Hsd0 Hsc0 Hm
        | descs0 costs0 costs' Hsd0 Hsc0 Hm]; simpl.
  - exfalso. apply Hmiss. apply dec_stable. intros Hn.
    rewrite (select_not_in _ _ Hn) in Hsd. discriminate.
  - exfalso. apply Hmiss. apply dec_stable. intros Hn.
    rewrite (select_not_in _ _ Hn) in Hsc. discriminate.
  - rewrite Hsd in Hrep. now contradiction Hrep.
  - rewrite Hsc in Hrep. now contradiction Hrep.
  - rewrite Hsc in Hsc0. injection Hsc0 as <-. split; [|reflexivity].
    intros Hall. apply Hiff in Hall. rewrite Hm in Hall.
    destruct Hall as [? [=]].
  - rewrite Hsd in Hsd0. injection Hsd0 as <-.
    rewrite Hsc in Hsc0. injection Hsc0 as <-. split.
    + intros _. exists costs'. split; [exact Hm | reflexivity].
    + intros Hnot. exfalso. apply Hnot, Hiff. rewrite Hm. eauto.
Qed.

Example scattered_digits_are_one_number :
  readable_cell (RStr (lit "12 each, was 3.5"))
  /\ clean_cost (RStr (lit "12 each, was 3.5")) = Some (Finite 8690539905941504 (-46)).
Proof. split; [right; vm_compute; split; repeat constructor | vm_compute; reflexivity]. Qed.

(** C3 fails on the code: the cleaned text of ["12.34.56"] is the cell
    itself, with its two dots, and [float()] reads no part of it: it
    raises [ValueError].  Nothing catches the exception, in
    [clean_dataframe] or in the loop: the call returns neither a table nor
    [None], the run ends on the exception and writes nothing, the rows of
    the file read before included.  A file without a cost column, which
    [clean_dataframe] does refuse, is skipped and the run goes on. *)
Theorem two_dots_abort_run :
  cost_text (RStr (lit "12.34.56")) = Some (lit "12.34.56")
  /\ Float.of_text (lit "12.34.56") = None
  /\ clean_cost (RStr (lit "12.34.56")) = None
  /\ content pipes_file = Some pipes_frame
  /\ returned (clean_dataframe pipes_frame (fname pipes_file) (lit "Plumbing"))
     = Raise ValueError
  /\ cleaned_table sample_categories electrical_bid
     = Some [wire (Finite 5629499534213120 (-52)) (lit "ElectricalBid.csv");
             wire (Finite 5854679515581645 (-52)) (lit "ElectricalBid.csv")]
  /\ exit (merge_estimates pipes_world sample_host (lit "overwrite"))
     = ExitRaised ValueError
  /\ master (after (merge_estimates pipes_world sample_host (lit "overwrite"))) = None
  /\ returned (clean_dataframe [(lit "Description", [RStr (lit "see drawings")])]
                 (fname notes_file) Unknown) = Return None
  /\ exit (merge_estimates sample_world sample_host (lit "overwrite")) = ExitDone.
Proof.
  repeat split; vm_compute; reflexivity.
Qed.

(** ** After the master file is written *)

(** C9 fails on the code for the column widths: when reopening or saving
    the workbook fails after the master file is written, the exception
    leaves [merge_estimates]; the last line printed is the one of the save
    and the viewer is not launched. *)
Theorem resize_failure_propagates (w : world) (mode : str) (nd : table) (viewer : bool) :
  new_data w = Some nd ->
  let r := merge_estimates w (Host false viewer) mode in
  exit r = ExitRaised ResizeError
  /\ last (console r) = Some MasterSaved
  /\ master (after r) = Some (deduplicate (combined mode (master w) nd)).
Proof.
  intros Hnd r. subst r.
  split; [|split; [|now rewrite (merge_estimates_writes _ _ _ nd Hnd)]];
    revert Hnd; unfold new_data, merge_estimates, input_files;
    (destruct (config w) as [| |categories]; [discriminate..|]);
    (destruct (process_files _ _ _ _) as [[st out] [e|]] eqn:Hrun; [discriminate|]);
    (case_bool_decide as Hcd; [discriminate|]); intros _;
    (case_bool_decide as Hfiles;
     [rewrite Hfiles in Hrun; simpl in Hrun; injection Hrun as <- _;
      now contradiction Hcd|]);
    destruct (select_mode _ _ _) as [combined_df banner]; simpl.
  - reflexivity.
  - apply last_snoc.
Qed.

Lemma resize_failure_propagates_witness :
  exit (merge_estimates sample_world (Host false true) (lit "overwrite"))
  = ExitRaised ResizeError.
Proof.
  refine (proj1 (resize_failure_propagates sample_world (lit "overwrite") _ true _)).
  vm_compute; reflexivity.
Defined.


(** ** The scenario of the specification *)

Example electrical_bid_overwrite :
  master (after (merge_estimates sample_world sample_host (lit "overwrite")))
  = Some [Row (VText (lit "Electrical")) (VText (lit "12AWG wire"))
              (Finite 5629499534213120 (-52)) (lit "ElectricalBid.csv")].
Proof. vm_compute. reflexivity. Qed.

Example detect_category_examples :
  detect_category (lit "ElectricalBid") sample_categories = lit "Electrical"
  /\ detect_category (lit "PVC_PIPE_2024") sample_categories = lit "Plumbing"
  /\ detect_category (lit "misc") sample_categories = lit "Unknown".
Proof. repeat split; vm_compute; reflexivity. Qed.

Example rounding_examples :
  Float.of_text (lit "9007199254740993") = Some (Finite 4503599627370496 1)
  /\ Float.of_text (lit "9007199254740995") = Some (Finite 4503599627370498 1)
  /\ Float.of_text (lit "100000000000000000000000")
     = Some (Finite 5960464477539062 24)
  /\ Float.of_text (lit "0.3") = Some (Finite 5404319552844595 (-54))
  /\ Float.of_text (lit "0." ++ replicate 323 "0"%char ++ lit "3")
     = Some (Finite 1 (-1074))
  /\ Float.of_text (lit "1" ++ replicate 309 "0"%char) = Some PInf.
Proof. repeat split; vm_compute; reflexivity. Qed.

Example text_examples :
  normalized (Row VMissing (VText (lit "12AWG   Wire" ++ ["009"; "010"]%char ++ lit "x"))
                  (Finite 0 0) [])
  = VText (lit "12awg wire x")
  /\ normalized (Row VMissing (VNumber (lit "1001")) (Finite 0 0) []) = VMissing
  /\ Text.lower (lit "Caf" ++ ["201"; "160"]%char) = lit "caf" ++ ["233"; "160"]%char
  /\ Text.strip (["160"; "1"; "133"]%char) = lit "1"
  /\ Text.strip (lit "  a b  ") = lit "a b"
  /\ stem (lit "Bid.2024.CSV") = lit "Bid.2024"
  /\ suffix (lit "Bid.2024.CSV") = lit ".CSV"
  /\ suffix (lit ".csv") = []
  /\ is_input_file (Entry (lit "~$Bid.xlsx") None) = false
  /\ is_input_file (Entry (lit "Bid.XLSX") None) = true.
Proof. repeat split; vm_compute; reflexivity. Qed.

Example float_examples :
  Float.of_text (lit "0.1") = Some (Finite 7205759403792794 (-56))
  /\ Float.of_text (lit "12.") = Some (Finite 6755399441055744 (-49))
  /\ Float.of_text (lit ".5") = Some (Finite 4503599627370496 (-53))
  /\ Float.of_text (lit ".") = None
  /\ clean_cost (RInt (-15)) = Some (Finite 8444249301319680 (-49))
  /\ clean_cost RMissing = Some NaN.
Proof. repeat split; vm_compute; reflexivity. Qed.

(* ------------------------------------------------------------------ *)
(** * Further properties *)

(** ** Category detection, further *)

Lemma lower_char_idemp c : Text.lower_char (Text.lower_char c) = Text.lower_char c.
Proof. destruct c as [[] [] [] [] [] [] [] []]; reflexivity. Qed.

Lemma lower_idemp s : Text.lower (Text.lower s) = Text.lower s.
Proof.
  unfold Text.lower. induction s as [|c s IH]; csimpl; [reflexivity|].
  now rewrite lower_char_idemp, IH.
Qed.

Lemma any_keyword_in_lowered name keywords :
  any_keyword_in name keywords
  = existsb (fun k => Text.contains k name) (Text.lower <$> keywords).
Proof.
  unfold any_keyword_in. induction keywords as [|k ks IH]; csimpl; [reflexivity|].
  now rewrite IH.
Qed.

(** X1: the category detected is a name of the configuration or
    ["Unknown"]. *)
Theorem detect_category_in_config (filename : str) (categories : CategoryMap) :
  detect_category filename categories = Unknown
  \/ detect_category filename categories ∈ categories.*1.
Proof.
  unfold detect_category. induction categories as [|[c kws] rest IH]; simpl.
  - now left.
  - destruct (any_keyword_in _ kws).
    + right. left.
    + destruct IH as [IH | IH]; [now left | right; now right].
Qed.

(** X2: detection ignores case on both sides: two file names equal when
    lowercased, over two configurations with the same names and with
    keywords equal when lowercased, get the same category. *)
Theorem detect_category_ignores_case (f f' : str) (cats cats' : CategoryMap) :
  Text.lower f = Text.lower f' ->
  Forall2 (fun c c' : str * list str =>
             c.1 = c'.1 /\ Text.lower <$> c.2 = Text.lower <$> c'.2) cats cats' ->
  detect_category f cats = detect_category f' cats'.
Proof.
  intros Hf Hcats. unfold detect_category. rewrite <- Hf. clear Hf.
  induction Hcats as [|[c kws] [c' kws'] cats cats' [Hc Hk] _ IH]; simpl in *.
  - reflexivity.
  - subst c'. rewrite !any_keyword_in_lowered, Hk, IH. reflexivity.
Qed.

Lemma detect_category_ignores_case_witness :
  detect_category (lit "ELECTRICAL-bid")
    [(lit "Electrical", [lit "ELECtrical"])]
  = lit "Electrical".
Proof.
  refine (eq_trans (detect_category_ignores_case
            (lit "ELECTRICAL-bid") (lit "electrical-bid")
            [(lit "Electrical", [lit "ELECtrical"])]
            [(lit "Electrical", [lit "electrical"])] _ _) _).
  - vm_compute; reflexivity.
  - repeat constructor.
  - vm_compute; reflexivity.
Defined.

Lemma no_match_any_keyword filename c kws cats :
  no_match filename cats -> (c, kws) ∈ cats ->
  any_keyword_in (Text.lower filename) kws = false.
Proof.
  intros Hno Hin. destruct (any_keyword_in _ kws) eqn:Hany; [|reflexivity].
  apply any_keyword_in_spec in Hany as (k & Hk & Hm).
  now destruct (Hno c kws k Hin Hk).
Qed.

(** X3: an empty keyword occurs in every file name: a category that has
    one takes every file that no earlier category matches, so no file
    after it in the order is reached and none is ["Unknown"] by default. *)
Theorem empty_keyword_matches_all (filename : str) (before rest : CategoryMap)
    (c : str) (kws : list str) :
  no_match filename before ->
  [] ∈ kws ->
  detect_category filename (before ++ (c, kws) :: rest) = c.
Proof.
  intros Hno Hempty. unfold detect_category.
  induction before as [|[c0 kws0] before IH]; simpl.
  - assert (any_keyword_in (Text.lower filename) kws = true) as ->; [|reflexivity].
    apply any_keyword_in_spec. exists []. split; [exact Hempty|].
    exists [], (Text.lower filename). reflexivity.
  - rewrite (no_match_any_keyword filename c0 kws0 _ Hno) by left.
    apply IH. intros c' kws' k Hin. apply (Hno c' kws' k). now right.
Qed.

Lemma empty_keyword_matches_all_witness :
  detect_category (lit "roofing")
    [(lit "Electrical", [lit "electrical"]); (lit "Other", [lit "misc"; []]);
     (lit "Roofing", [lit "roof"])]
  = lit "Other".
Proof.
  apply (empty_keyword_matches_all (lit "roofing")
           [(lit "Electrical", [lit "electrical"])]
           [(lit "Roofing", [lit "roof"])] (lit "Other") [lit "misc"; []]).
  - intros c kws k Hc Hk [a [b Hab]].
    apply list_elem_of_singleton in Hc. injection Hc as -> ->.
    apply list_elem_of_singleton in Hk. subst k.
    apply (f_equal length) in Hab. rewrite !length_app in Hab.
    simpl in Hab. lia.
  - right. left.
Defined.

(** ** File names *)

Lemma is_dot_eq c : Text.is_dot c = true -> c = "."%char.
Proof.
  destruct c as [[] [] [] [] [] [] [] []]; intros H; vm_compute in H;
    first [discriminate H | reflexivity].
Qed.

Lemma rfind_dot_no_dot ext :
  (forall c, c ∈ ext -> Text.is_dot c = false) -> rfind_dot ext = None.
Proof.
  induction ext as [|c ext IH]; intros Hno; simpl; [reflexivity|].
  rewrite IH by (intros x Hx; apply Hno; now right).
  now rewrite Hno by left.
Qed.

Lemma rfind_dot_last s ext :
  (forall c, c ∈ ext -> Text.is_dot c = false) ->
  rfind_dot (s ++ "."%char :: ext) = Some (length s).
Proof.
  intros Hno. induction s as [|c s IH]; simpl.
  - now rewrite (rfind_dot_no_dot ext Hno).
  - now rewrite IH.
Qed.

Lemma rfind_dot_Some name i :
  rfind_dot name = Some i ->
  exists s ext,
    name = s ++ "."%char :: ext /\ length s = i
    /\ (forall c, c ∈ ext -> Text.is_dot c = false).
Proof.
  revert i; induction name as [|c name IH]; intros i; simpl; [discriminate|].
  destruct (rfind_dot name) as [j|] eqn:Hj.
  - intros [= <-]. destruct (IH j eq_refl) as (s & ext & -> & <- & Hno).
    exists (c :: s), ext. repeat split. exact Hno.
  - destruct (Text.is_dot c) eqn:Hc; [|discriminate]. intros [= <-].
    apply is_dot_eq in Hc as ->. exists [], name. repeat split.
    clear IH. induction name as [|x name IHn]; intros y Hy; [inversion Hy|].
    simpl in Hj. destruct (rfind_dot name) eqn:Hn; [discriminate|].
    destruct (Text.is_dot x) eqn:Hx; [discriminate|].
    apply elem_of_cons in Hy as [-> | Hy]; [exact Hx | now apply IHn].
Qed.

Lemma suffix_nonempty name :
  suffix name <> [] ->
  exists s ext,
    name = s ++ "."%char :: ext /\ s <> [] /\ ext <> []
    /\ (forall c, c ∈ ext -> Text.is_dot c = false)
    /\ stem name = s /\ suffix name = "."%char :: ext.
Proof.
  unfold suffix, stem, cut_point.
  destruct (rfind_dot name) as [i|] eqn:Hi.
  - destruct (rfind_dot_Some name i Hi) as (s & ext & -> & <- & Hno).
    case_bool_decide as H0; simpl.
    + case_bool_decide as H1; simpl.
      * intros _. exists s, ext. rewrite length_app in H1. simpl in H1.
        repeat split.
        -- intros ->. simpl in H0. lia.
        -- intros ->. simpl in H1. lia.
        -- exact Hno.
        -- now rewrite take_app_length.
        -- now rewrite drop_app_length.
      * rewrite drop_all. now intros [].
    + rewrite drop_all. now intros [].
  - rewrite drop_all. now intros [].
Qed.

Lemma stem_suffix_parts s ext :
  s <> [] -> ext <> [] ->
  (forall c, c ∈ ext -> Text.is_dot c = false) ->
  stem (s ++ "."%char :: ext) = s
  /\ suffix (s ++ "."%char :: ext) = "."%char :: ext.
Proof.
  intros Hs Hext Hno. unfold stem, suffix, cut_point.
  rewrite (rfind_dot_last s ext Hno).
  rewrite bool_decide_eq_true_2 by (destruct s; [contradiction | simpl; lia]).
  rewrite bool_decide_eq_true_2
    by (rewrite length_app; destruct ext; [contradiction | simpl; lia]).
  simpl. now rewrite take_app_length, drop_app_length.
Qed.

(** [Path.stem] and [Path.suffix] cut a name at its last dot when
    that dot has something before it and something after it: such a name
    gives back exactly the two parts, and the parts of any name put
    together are the name. *)
Theorem stem_suffix_split (s ext : str) :
  s <> [] -> ext <> [] ->
  (forall c, c ∈ ext -> Text.is_dot c = false) ->
  stem (s ++ "."%char :: ext) = s
  /\ suffix (s ++ "."%char :: ext) = "."%char :: ext
  /\ (forall name, stem name ++ suffix name = name).
Proof.
  intros Hs Hext Hno.
  destruct (stem_suffix_parts s ext Hs Hext Hno) as [H1 H2].
  repeat split; [exact H1 | exact H2|].
  intros name. apply take_drop.
Qed.

Lemma stem_suffix_split_witness :
  stem (lit "Bid.2024" ++ "."%char :: lit "csv") = lit "Bid.2024"
  /\ suffix (lit "Bid.2024" ++ "."%char :: lit "csv") = lit ".csv".
Proof.
  destruct (stem_suffix_split (lit "Bid.2024") (lit "csv")) as (H1 & H2 & _).
  - discriminate.
  - discriminate.
  - intros c Hc. unfold lit in Hc. simpl in Hc.
    repeat (apply elem_of_cons in Hc as [-> | Hc]; [reflexivity|]).
    inversion Hc.
  - split; [exact H1 | exact H2].
Defined.

Lemma lowered_has_no_dot ext target :
  Text.lower ext = target ->
  (forall c, c ∈ target -> Text.is_dot c = false) ->
  forall c, c ∈ ext -> Text.is_dot c = false.
Proof.
  intros Hl Ht c Hc. destruct (Text.is_dot c) eqn:Hd; [|reflexivity].
  apply is_dot_eq in Hd. subst c.
  assert (Hin : Text.lower_char "."%char ∈ Text.lower ext)
    by (unfold Text.lower; now apply list_elem_of_fmap_2).
  rewrite Hl in Hin. now apply Ht in Hin.
Qed.

(** X4: the files the run reads are those whose name has a non-empty
    part, a dot, and [csv] or [xlsx] in any case, and does not start
    with ["~$"]; a name that is only [.csv], a lock file and any other
    extension are left alone. *)
Theorem input_file_names (f : entry) :
  is_input_file f = true
  <-> Text.startswith (lit "~$") (fname f) = false
      /\ exists s ext,
           fname f = s ++ "."%char :: ext /\ s <> []
           /\ (Text.lower ext = lit "csv" \/ Text.lower ext = lit "xlsx").
Proof.
  unfold is_input_file. rewrite andb_true_iff, negb_true_iff, orb_true_iff.
  rewrite !bool_decide_eq_true. split.
  - intros [Hsuf Hlock]. split; [exact Hlock|].
    assert (Hne : suffix (fname f) <> [])
      by (intros H0; rewrite H0 in Hsuf; destruct Hsuf; discriminate).
    destruct (suffix_nonempty _ Hne) as (s & ext & Hname & Hs & _ & _ & _ & Hsx).
    exists s, ext. split; [exact Hname|]. split; [exact Hs|].
    rewrite Hsx in Hsuf. unfold Text.lower in *. rewrite fmap_cons in Hsuf.
    destruct Hsuf as [H1 | H1]; apply (f_equal tail) in H1; [right | left]; exact H1.
  - intros [Hlock (s & ext & Hname & Hs & Hext)]. split; [|exact Hlock].
    assert (Hno : forall c, c ∈ ext -> Text.is_dot c = false).
    { destruct Hext as [He | He];
        apply (lowered_has_no_dot ext _ He); intros c Hc; unfold lit in Hc;
        simpl in Hc;
        repeat (apply elem_of_cons in Hc as [-> | Hc]; [reflexivity|]);
        inversion Hc. }
    assert (Hne : ext <> [])
      by (intros ->; destruct Hext; discriminate).
    destruct (stem_suffix_parts s ext Hs Hne Hno) as [_ Hsx].
    rewrite Hname, Hsx. unfold Text.lower in *. rewrite fmap_cons.
    destruct Hext as [He | He]; rewrite He; [right | left]; reflexivity.
Qed.

(** ** Cleaning, further *)

Lemma lstrip_head s c : head (Text.lstrip s) = Some c -> Text.is_space c = false.
Proof.
  induction s as [|a s IH]; simpl; [discriminate|].
  destruct (Text.is_space a) eqn:Ha; [exact IH|].
  simpl. now intros [= <-].
Qed.

Lemma lstrip_snoc l c :
  Text.is_space c = false -> Text.lstrip (l ++ [c]) = Text.lstrip l ++ [c].
Proof.
  intros Hc. induction l as [|a l IH]; simpl.
  - now rewrite Hc.
  - destruct (Text.is_space a); [exact IH | reflexivity].
Qed.

Lemma strip_trimmed s : trimmed (Text.strip s).
Proof.
  unfold trimmed, Text.strip, Text.rstrip.
  pose proof (lstrip_head s) as Hhead.
  destruct (Text.lstrip s) as [|a t] eqn:Ht.
  - simpl. split; discriminate.
  - assert (Ha : Text.is_space a = false) by now apply Hhead.
    simpl rev. rewrite (lstrip_snoc _ a Ha), rev_app_distr. simpl. split.
    + now intros c [= <-].
    + intros c Hc.
      destruct (Text.lstrip (rev t)) as [|b u] eqn:Hu.
      * simpl in Hc. now injection Hc as <-.
      * apply (lstrip_head (rev t)).
        rewrite Hu. simpl. simpl in Hc.
        rewrite last_cons in Hc.
        rewrite last_snoc in Hc. exact Hc.
Qed.

(** X5: every row of the table [clean_dataframe] returns carries the
    category and the file name the call was given, and a description
    without white space at either end, when it is not the missing one of a
    missing cell. *)
Theorem cleaned_rows_provenance (df : frame raw) (source cat : str) (t : table) :
  returned (clean_dataframe df source cat) = Return (Some t) ->
  Forall (fun r => category r = VText cat /\ source_file r = source
                   /\ (description r = VMissing
                       \/ exists d, description r = VText d /\ trimmed d)) t.
Proof.
  destruct (clean_dataframe_cases df source cat)
    as [Hmiss | Hrep | descs Hsd Hrep | descs costs Hsd Hsc Hm
        | descs costs costs' Hsd Hsc Hm]; simpl; try discriminate.
  intros [= <-]. apply Forall_forall. intros r Hr.
  apply elem_of_zip_with in Hr as (d & y & -> & Hd & _). simpl.
  repeat split.
  apply list_elem_of_fmap in Hd as (x & -> & _). unfold clean_description.
  destruct (astype_str x) as [s|]; [right | now left].
  exists (Text.strip s). split; [reflexivity | apply strip_trimmed].
Qed.

Lemma cleaned_rows_provenance_witness :
  Forall (fun r => category r = VText (lit "Electrical")
                   /\ source_file r = lit "bid.csv"
                   /\ (description r = VMissing
                       \/ exists d, description r = VText d /\ trimmed d))
    [Row (VText (lit "Electrical")) (VText (lit "12AWG wire")) (Finite 5629499534213120 (-52))
         (lit "bid.csv");
     Row (VText (lit "Electrical")) VMissing (Finite 4503599627370496 (-51))
         (lit "bid.csv")].
Proof.
  apply (cleaned_rows_provenance
           [(lit "Description", [RStr (lit "  12AWG wire "); RMissing]);
            (lit "Unit Cost", [RStr (lit "$1.25"); RInt 2])]
           (lit "bid.csv") (lit "Electrical")).
  vm_compute; reflexivity.
Defined.

(** X6: cleaning drops no row: over a frame whose two columns have the
    same number of cells the table returned has that number of rows, which
    is the number the line printed for the file gives. *)
Theorem cleaning_keeps_every_row (df : frame raw) (source cat : str) (t : table) :
  returned (clean_dataframe df source cat) = Return (Some t) ->
  exists descs costs,
    select l_description (relabelled df) = [descs]
    /\ select l_unit_cost (relabelled df) = [costs]
    /\ (length descs = length costs ->
        length t = length descs
        /\ printed (clean_dataframe df source cat)
           = [Processed source (length t) cat]).
Proof.
  destruct (clean_dataframe_cases df source cat)
    as [Hmiss | Hrep | descs Hsd Hrep | descs costs Hsd Hsc Hm
        | descs costs costs' Hsd Hsc Hm]; simpl; try discriminate.
  intros [= <-]. exists descs, costs. repeat split; try assumption.
  - apply mapM_Some, Forall2_length in Hm.
    rewrite length_zip_with, length_fmap. lia.
  - apply mapM_Some, Forall2_length in Hm.
    rewrite length_zip_with, length_fmap. do 2 f_equal. lia.
Qed.

Lemma cleaning_keeps_every_row_witness :
  exists descs costs,
    select l_description (relabelled
      [(lit "Description", [RStr (lit "a"); RStr (lit "a")]);
       (lit "Unit Cost", [RInt 1; RInt 2])]) = [descs]
    /\ select l_unit_cost (relabelled
      [(lit "Description", [RStr (lit "a"); RStr (lit "a")]);
       (lit "Unit Cost", [RInt 1; RInt 2])]) = [costs]
    /\ length descs = 2%nat /\ length costs = 2%nat.
Proof.
  destruct (cleaning_keeps_every_row
    [(lit "Description", [RStr (lit "a"); RStr (lit "a")]);
     (lit "Unit Cost", [RInt 1; RInt 2])] (lit "f.csv") (lit "Unknown")
    [Row (VText (lit "Unknown")) (VText (lit "a")) (Finite 4503599627370496 (-52)) (lit "f.csv");
     Row (VText (lit "Unknown")) (VText (lit "a")) (Finite 4503599627370496 (-51)) (lit "f.csv")])
    as (descs & costs & Hd & Hc & _).
  - vm_compute; reflexivity.
  - exists descs, costs. split; [exact Hd|]. split; [exact Hc|].
    revert Hd Hc. vm_compute. intros [= <-] [= <-]. split; reflexivity.
Defined.

(** X7: a frame in which two columns end up labelled [description] (an
    [Item Description] beside a [Description], say), or two labelled
    [unit cost], is not cleaned: the call raises [AttributeError]. *)
Theorem repeated_column_raises (df : frame raw) (source cat : str) :
  l_description ∈ labels (relabelled df) ->
  l_unit_cost ∈ labels (relabelled df) ->
  length (select l_description (relabelled df)) <> 1%nat
  \/ length (select l_unit_cost (relabelled df)) <> 1%nat ->
  returned (clean_dataframe df source cat) = Raise AttributeError.
Proof.
  intros Hd Hc Hrep.
  destruct (clean_dataframe_cases df source cat)
    as [[Hmiss | Hmiss] | Hrep' | descs Hsd Hrep' | descs costs Hsd Hsc Hm
        | descs costs costs' Hsd Hsc Hm]; simpl; try reflexivity;
    try contradiction.
  - rewrite Hsd, Hsc in Hrep. simpl in Hrep. destruct Hrep; contradiction.
  - rewrite Hsd, Hsc in Hrep. simpl in Hrep. destruct Hrep; contradiction.
Qed.

Lemma repeated_column_raises_witness :
  returned (clean_dataframe two_descriptions (lit "f.csv") (lit "Unknown"))
  = Raise AttributeError.
Proof.
  apply repeated_column_raises.
  - vm_compute. left.
  - vm_compute. right. right. left.
  - left. vm_compute. discriminate.
Defined.

Lemma filter_none {A} (P : A -> Prop) `{forall x, Decision (P x)} (l : list A) :
  (forall x, x ∈ l -> ~ P x) -> filter P l = [].
Proof.
  induction l as [|a l IH]; intros Hno; [reflexivity|].
  rewrite filter_cons_False by (apply Hno; left).
  apply IH. intros x Hx. apply Hno. now right.
Qed.

(** X8: a cost cell that holds a value whose text has no digit and no
    dot ([TBD], [call us], a lone minus sign) is read as the cost 0.0: it
    is not refused. *)
Theorem cost_without_digits_is_zero (c : raw) (s : str) :
  astype_str c = Some s ->
  (forall ch, ch ∈ s -> Text.is_digit ch = false /\ Text.is_dot ch = false) ->
  clean_cost c = Some (Finite 0 0).
Proof.
  intros Hs Hno. unfold clean_cost, strip_non_numeric. rewrite Hs.
  rewrite filter_none; [reflexivity|].
  intros ch Hch. destruct (Hno ch Hch) as [-> ->]. simpl. tauto.
Qed.

Lemma cost_without_digits_is_zero_witness :
  clean_cost (RStr (lit "-")) = Some (Finite 0 0)
  /\ clean_cost (RStr (lit "TBD")) = Some (Finite 0 0).
Proof.
  split; eapply cost_without_digits_is_zero; try reflexivity; intros ch Hch;
    unfold lit in Hch; simpl in Hch;
    repeat (apply elem_of_cons in Hch as [-> | Hch]; [split; reflexivity|]);
    inversion Hch.
Defined.

(** ** Integer costs *)

Lemma of_ratio_exact n :
  0 < n < 2 ^ 53 ->
  Float.of_ratio n 1 = Finite (n * 2 ^ (52 - Z.log2 n)) (Z.log2 n - 52).
Proof.
  intros [Hpos Hlt].
  pose proof (Z.log2_spec n Hpos) as [Hlo Hhi].
  pose proof (Z.log2_nonneg n) as Hl0.
  assert (Hl : Z.log2 n < 53) by (apply Z.log2_lt_pow2; lia).
  set (L := Z.log2 n) in *.
  assert (Hup : n * 2 ^ (52 - L) < 2 ^ 53).
  { replace (2 ^ 53) with (2 ^ Z.succ L * 2 ^ (52 - L))
      by (rewrite <- Z.pow_add_r by lia; f_equal; lia).
    apply Z.mul_lt_mono_pos_r; [apply Z.pow_pos_nonneg; lia | exact Hhi]. }
  assert (Hdown : 2 ^ 53 <= n * 2 ^ (53 - L)).
  { replace (2 ^ 53) with (2 ^ L * 2 ^ (53 - L)) at 1
      by (rewrite <- Z.pow_add_r by lia; f_equal; lia).
    apply Z.mul_le_mono_nonneg_r; [apply Z.pow_nonneg; lia | exact Hlo]. }
  unfold Float.of_ratio. fold L.
  rewrite (proj2 (Z.eqb_neq n 0)) by lia.
  change (Z.log2 1) with 0.
  unfold Float.scaled at 1.
  rewrite (proj2 (Z.leb_gt 0 (L - 0 - 53))) by lia.
  replace (- (L - 0 - 53)) with (53 - L) by lia.
  rewrite Z.div_1_r.
  rewrite (proj2 (Z.leb_le (2 ^ 53) (n * 2 ^ (53 - L)))) by exact Hdown.
  replace (Z.max (L - 0 - 53 + 1) (-1074)) with (L - 52) by lia.
  assert (Hsc : Float.scaled n 1 (L - 52) = (n * 2 ^ (52 - L), 1)).
  { unfold Float.scaled. destruct (0 <=? L - 52) eqn:He.
    - apply Z.leb_le in He. assert (L = 52) as -> by lia.
      simpl. f_equal. lia.
    - f_equal. f_equal. f_equal. lia. }
  rewrite Hsc.
  assert (Hr : Float.round_half_even (n * 2 ^ (52 - L)) 1 = n * 2 ^ (52 - L)).
  { unfold Float.round_half_even. rewrite Z.div_1_r, Z.mod_1_r. reflexivity. }
  rewrite Hr, (proj2 (Z.eqb_neq _ (2 ^ 53))) by lia.
  rewrite (proj2 (Z.ltb_ge 971 (L - 52))) by lia.
  reflexivity.
Qed.

(** X9: an integer cost cell is read as its absolute value, the sign
    being one of the characters removed; below 2^53 the float is exactly
    that number. *)
Theorem integer_cost_read_exactly (z : Z) :
  clean_cost (RInt z) = Some (Float.of_ratio (Z.abs z) 1)
  /\ clean_cost (RInt (- z)) = clean_cost (RInt z)
  /\ (Z.abs z < 2 ^ 53 ->
      exists m e, Float.of_ratio (Z.abs z) 1 = Finite m e
                  /\ e <= 0 /\ m = Z.abs z * 2 ^ (- e)).
Proof.
  assert (Hall : forall z, clean_cost (RInt z) = Some (Float.of_ratio (Z.abs z) 1)).
  { intros [|p|p]; unfold clean_cost, astype_str.
    - reflexivity.
    - apply positive_cost.
    - simpl Z.to_int. cbn [NilZero.string_of_int].
      change (lit (String "-" ?s)) with ("-"%char :: lit s).
      unfold strip_non_numeric at 1. rewrite filter_cons_False by (simpl; tauto).
      apply positive_cost. }
  split; [apply Hall|]. split; [now rewrite !Hall, Z.abs_opp|].
  intros Hlt. destruct (Z.eq_dec (Z.abs z) 0) as [-> | Hnz].
  - exists 0, 0. repeat split. lia.
  - rewrite of_ratio_exact by lia.
    pose proof (Z.log2_nonneg (Z.abs z)).
    assert (Z.log2 (Z.abs z) < 53) by (apply Z.log2_lt_pow2; lia).
    eexists _, _. split; [reflexivity|]. split; [lia|].
    f_equal. f_equal. lia.
Qed.

(** ** The normalized description *)

Lemma lower_char_not_upper c : Text.is_upper (Text.lower_char c) = false.
Proof. destruct c as [[] [] [] [] [] [] [] []]; reflexivity. Qed.

Lemma lower_char_space c : Text.is_space (Text.lower_char c) = Text.is_space c.
Proof. destruct c as [[] [] [] [] [] [] [] []]; reflexivity. Qed.

Lemma collapse_from_chars b s c :
  c ∈ Text.collapse_from b s ->
  c = " "%char \/ (c ∈ s /\ Text.is_space c = false).
Proof.
  revert b; induction s as [|a s IH]; intros b; simpl; [intros H; inversion H|].
  destruct (Text.is_space a) eqn:Ha.
  - destruct b.
    + intros H. destruct (IH _ H) as [-> | [? ?]]; [now left | right; split; [now right | assumption]].
    + intros [-> | H]%elem_of_cons; [now left|].
      destruct (IH _ H) as [-> | [? ?]]; [now left | right; split; [now right | assumption]].
  - intros [-> | H]%elem_of_cons; [right; split; [left | exact Ha]|].
    destruct (IH _ H) as [-> | [? ?]]; [now left | right; split; [now right | assumption]].
Qed.

Lemma collapse_from_no_double s :
  (forall c, head (Text.collapse_from true s) = Some c -> c <> " "%char)
  /\ forall b, has_double_space (Text.collapse_from b s) = false.
Proof.
  induction s as [|a s [IHh IHd]]; simpl.
  - split; [discriminate | intros []; reflexivity].
  - destruct (Text.is_space a) eqn:Ha.
    + split; [exact IHh|]. intros [|]; [apply IHd|].
      simpl. specialize (IHd true).
      destruct (Text.collapse_from true s) as [|x t] eqn:Hc; [reflexivity|].
      rewrite IHd, orb_false_r.
      apply bool_decide_eq_false_2, IHh. reflexivity.
    + assert (Hne : a <> " "%char) by (intros ->; discriminate Ha).
      split; [simpl; now intros c [= <-]|]. intros b.
      simpl. specialize (IHd false).
      destruct (Text.collapse_from false s) as [|x t] eqn:Hc; [reflexivity|].
      rewrite IHd, orb_false_r.
      now rewrite (bool_decide_eq_false_2 (a = " "%char)).
Qed.

Lemma collapse_from_idemp b s :
  Text.collapse_from b (Text.collapse_from b s) = Text.collapse_from b s.
Proof.
  revert b; induction s as [|a s IH]; intros b; simpl; [reflexivity|].
  destruct (Text.is_space a) eqn:Ha.
  - destruct b; [apply IH|]. simpl. now rewrite IH.
  - simpl. rewrite Ha. now rewrite IH.
Qed.

Lemma collapse_from_lower b s :
  Text.collapse_from b (Text.lower s) = Text.lower (Text.collapse_from b s).
Proof.
  unfold Text.lower. revert b; induction s as [|a s IH]; intros b; csimpl; [reflexivity|].
  rewrite lower_char_space. destruct (Text.is_space a) eqn:Ha.
  - destruct b; [apply IH|]. csimpl. now rewrite IH.
  - csimpl. now rewrite IH.
Qed.

(** X10: the normalized description of a description that is a text is a
    text in a canonical form: it has no capital letter, its only white
    space is the space and never two in a row; and normalizing a
    normalized description again gives it back. *)
Theorem normalized_canonical (r : row) :
  (forall d, description r = VText d ->
     normalized r = VText (Text.collapse_spaces (Text.lower d)))
  /\ (forall n, normalized r = VText n ->
        (forall c, c ∈ n ->
           Text.is_upper c = false /\ (Text.is_space c = true -> c = " "%char))
        /\ has_double_space n = false
        /\ Text.collapse_spaces (Text.lower n) = n)
  /\ str_method Text.collapse_spaces (str_method Text.lower (normalized r))
     = normalized r.
Proof.
  unfold normalized, Text.collapse_spaces.
  assert (Hidem : forall d,
    Text.collapse_from false (Text.lower (Text.collapse_from false (Text.lower d)))
    = Text.collapse_from false (Text.lower d)).
  { intros d. rewrite collapse_from_lower, collapse_from_idemp, <- collapse_from_lower.
    now rewrite lower_idemp. }
  split; [|split].
  - intros d ->. reflexivity.
  - intros n. destruct (description r) as [d| |]; simpl; try discriminate.
    intros [= <-]. split; [|split].
    + intros c Hc. apply collapse_from_chars in Hc as [-> | [Hc Hs]].
      * split; reflexivity.
      * split; [|congruence].
        unfold Text.lower in Hc. apply list_elem_of_fmap in Hc as (x & -> & _).
        apply lower_char_not_upper.
    + apply collapse_from_no_double.
    + apply Hidem.
  - destruct (description r) as [d| |]; simpl; try reflexivity.
    now rewrite Hidem.
Qed.

Lemma normalized_canonical_witness :
  normalized (wire (Finite 1 0) (lit "a.csv")) = VText (lit "12awg wire")
  /\ has_double_space (lit "12awg wire") = false.
Proof.
  destruct (normalized_canonical (wire (Finite 1 0) (lit "a.csv"))) as (Hn & Hc & _).
  assert (H1 : normalized (wire (Finite 1 0) (lit "a.csv")) = VText (lit "12awg wire"))
    by (rewrite (Hn _ eq_refl); vm_compute; reflexivity).
  split; [exact H1|]. exact (proj1 (proj2 (Hc _ H1))).
Defined.

Lemma collapse_from_blank b ws t :
  blank_run ws ->
  Text.collapse_from b (ws ++ t)
  = (if b then [] else [" "%char]) ++ Text.collapse_from true t.
Proof.
  intros [Hne Hall]. revert b. induction ws as [|c ws IH]; [contradiction|].
  intros b. simpl. rewrite (Hall c) by left.
  destruct ws as [|c' ws].
  - simpl. destruct b; reflexivity.
  - assert (Hrun : Text.collapse_from true ((c' :: ws) ++ t)
                   = Text.collapse_from true t).
    { apply (IH ltac:(discriminate) ltac:(intros x Hx; apply Hall; now right) true). }
    destruct b; now rewrite Hrun.
Qed.

Lemma collapse_run_irrelevant b a ws ws' t :
  blank_run ws -> blank_run ws' ->
  Text.collapse_from b (a ++ ws ++ t) = Text.collapse_from b (a ++ ws' ++ t).
Proof.
  intros Hws Hws'. revert b; induction a as [|c a IH]; intros b; simpl.
  - now rewrite !collapse_from_blank.
  - destruct (Text.is_space c); [destruct b|]; now rewrite IH.
Qed.

Lemma lower_blank ws : blank_run ws -> blank_run (Text.lower ws).
Proof.
  intros [Hne Hall]. unfold Text.lower. split.
  - destruct ws; [contradiction | discriminate].
  - intros c (x & -> & Hx)%list_elem_of_fmap.
    rewrite lower_char_space. now apply Hall.
Qed.

(** X11: two rows of one category are duplicates when their descriptions
    differ only in the case of the letters and in what a run of white
    space is made of (one space, several, a tab). *)
Theorem key_ignores_case_and_spacing (r r' : row) (a a' ws ws' b b' : str) :
  category r = category r' ->
  description r = VText (a ++ ws ++ b) ->
  description r' = VText (a' ++ ws' ++ b') ->
  Text.lower a = Text.lower a' -> Text.lower b = Text.lower b' ->
  blank_run ws -> blank_run ws' ->
  key r = key r'.
Proof.
  intros Hc Hd Hd' Ha Hb Hws Hws'. unfold key, normalized, Text.collapse_spaces.
  rewrite Hc, Hd, Hd'. simpl. do 2 f_equal.
  unfold Text.lower in *. rewrite !fmap_app, Ha, Hb.
  apply collapse_run_irrelevant; now apply lower_blank.
Qed.

Lemma key_ignores_case_and_spacing_witness :
  key (wire (Finite 1 0) (lit "a.csv"))
  = key (Row (VText (lit "Electrical"))
                  (VText (lit "12awg" ++ ["009"; "160"]%char ++ lit "WIRE"))
                  (Finite 2 0) (lit "b.csv")).
Proof.
  apply (key_ignores_case_and_spacing _ _
           (lit "12AWG") (lit "12awg") [" "%char] ["009"; "160"]%char
           (lit "wire") (lit "WIRE")); try reflexivity.
  - split; [discriminate|]. intros c Hc.
    repeat (apply elem_of_cons in Hc as [-> | Hc]; [reflexivity|]). inversion Hc.
  - split; [discriminate|]. intros c Hc.
    repeat (apply elem_of_cons in Hc as [-> | Hc]; [reflexivity|]). inversion Hc.
Defined.

(** ** The run, further *)

Lemma merge_estimates_keeps_world w h mode :
  new_data w = None ->
  after (merge_estimates w h mode)
  = World (config w) (Some (default [] (input_dir w))) (master w).
Proof.
  unfold new_data, merge_estimates, input_files.
  destruct (config w) as [| |categories]; [reflexivity..|].
  case_bool_decide; [reflexivity|].
  destruct (process_files _ _ _ _) as [[st out] [e|]]; [reflexivity|].
  case_bool_decide; [reflexivity | discriminate].
Qed.

Lemma exit_of_run w h mode :
  exit (merge_estimates w h mode)
  = match config w with
    | ConfigMissing => ExitNoConfig
    | ConfigMalformed => ExitRaised JSONDecodeError
    | ConfigOk categories =>
        if bool_decide (input_files w = []) then ExitNoInput
        else match process_files categories (input_files w) (LoopState [] 0 0) [] with
             | (_, _, Some e) => ExitRaised e
             | (st, _, None) =>
                 if bool_decide (combined_data st = []) then ExitNoValidData
                 else if resize_ok h then ExitDone else ExitRaised ResizeError
             end
    end.
Proof.
  unfold merge_estimates, input_files.
  destruct (config w) as [| |categories]; [reflexivity..|].
  case_bool_decide; [reflexivity|].
  destruct (process_files _ _ _ _) as [[st out] [e|]]; [reflexivity|].
  case_bool_decide; [reflexivity|].
  destruct (select_mode _ _ _) as [combined_df banner].
  unfold auto_adjust_column_width. destruct (resize_ok h); reflexivity.
Qed.

(** X12: a run never changes the configuration or the files of the
    input folder, and the folder exists when the run ends, however it
    ends. *)
Theorem run_leaves_inputs (w : world) (h : host) (mode : str) :
  let r := merge_estimates w h mode in
  config (after r) = config w
  /\ input_dir (after r) = Some (default [] (input_dir w))
  /\ (forall dir, input_dir w = Some dir -> input_dir (after r) = Some dir).
Proof.
  intros r. subst r.
  assert (H : config (after (merge_estimates w h mode)) = config w
              /\ input_dir (after (merge_estimates w h mode))
                 = Some (default [] (input_dir w))).
  { destruct (new_data w) as [nd|] eqn:Hnd.
    - rewrite (merge_estimates_writes w h mode nd Hnd). split; reflexivity.
    - rewrite (merge_estimates_keeps_world w h mode Hnd). split; reflexivity. }
  destruct H as [H1 H2]. repeat split; [exact H1 | exact H2|].
  intros dir Hdir. now rewrite H2, Hdir.
Qed.

Lemma run_leaves_inputs_witness :
  input_dir (after (merge_estimates pipes_world sample_host (lit "append")))
  = Some [electrical_bid; pipes_file].
Proof.
  apply (proj2 (proj2 (run_leaves_inputs pipes_world sample_host (lit "append")))).
  reflexivity.
Defined.

(** X13: any mode that is not [append] when lowercased (a misspelt one
    included) does what overwrite mode does: the run leaves the same files
    and ends the same way. *)
Theorem unknown_mode_is_overwrite (w : world) (h : host) (mode : str) :
  Text.lower mode <> lit "append" ->
  after (merge_estimates w h mode) = after (merge_estimates w h (lit "overwrite"))
  /\ exit (merge_estimates w h mode) = exit (merge_estimates w h (lit "overwrite")).
Proof.
  intros Hm. split; [|now rewrite !exit_of_run].
  destruct (new_data w) as [nd|] eqn:Hnd.
  - rewrite !(merge_estimates_writes w h _ nd Hnd). unfold combined.
    rewrite (bool_decide_eq_false_2 _ Hm).
    rewrite (bool_decide_eq_false_2 (Text.lower (lit "overwrite") = lit "append"))
      by discriminate.
    reflexivity.
  - now rewrite !(merge_estimates_keeps_world w h _ Hnd).
Qed.

Lemma unknown_mode_is_overwrite_witness :
  master (after (merge_estimates repeated_world sample_host (lit "apend")))
  = Some [wire (Finite 5629499534213120 (-52)) (lit "ElectricalBid.csv")].
Proof.
  rewrite (proj1 (unknown_mode_is_overwrite repeated_world sample_host (lit "apend")
                    ltac:(discriminate))).
  vm_compute; reflexivity.
Defined.

(** X14: whenever a run changes the master file, the table it writes has
    no two rows with the same key, in every mode. *)
Theorem written_master_unique_keys (w : world) (h : host) (mode : str) :
  master (after (merge_estimates w h mode)) = master w
  \/ exists t, master (after (merge_estimates w h mode)) = Some t
               /\ NoDup (key <$> t).
Proof.
  destruct (new_data w) as [nd|] eqn:Hnd.
  - right. rewrite (merge_estimates_writes w h mode nd Hnd). simpl.
    eexists. split; [reflexivity | apply deduplicate_NoDup].
  - left. now apply merge_estimates_keeps.
Qed.

Lemma clean_dataframe_raise df source cat e :
  returned (clean_dataframe df source cat) = Raise e ->
  e = AttributeError \/ e = ValueError.
Proof.
  destruct (clean_dataframe_cases df source cat); simpl; intros [= <-]; auto.
Qed.

Lemma process_files_raises categories files f st out :
  f ∈ files -> raises categories f ->
  exists st' out' e,
    process_files categories files st out = (st', out', Some e)
    /\ e <> ResizeError.
Proof.
  intros Hin Hraise. revert st out.
  induction files as [|f0 files IH]; intros st out; [inversion Hin|]. simpl.
  destruct (content f0) as [df|] eqn:Hc.
  - destruct (returned _) as [[t|]|e] eqn:Hret.
    + apply elem_of_cons in Hin as [-> | Hin]; [|now apply IH].
      destruct Hraise as [Hn | (df' & e & Hc' & Hr')]; [congruence|].
      rewrite Hc in Hc'. injection Hc' as <-. congruence.
    + apply elem_of_cons in Hin as [-> | Hin]; [|now apply IH].
      destruct Hraise as [Hn | (df' & e & Hc' & Hr')]; [congruence|].
      rewrite Hc in Hc'. injection Hc' as <-. congruence.
    + eexists _, _, e. split; [reflexivity|].
      destruct (clean_dataframe_raise _ _ _ _ Hret) as [-> | ->]; discriminate.
  - eexists _, _, ReadError. split; [reflexivity | discriminate].
Qed.

(** X15: one file is enough to stop everything: when a file the run
    reads cannot be loaded, or makes [clean_dataframe] raise, the run ends
    on an exception and the master file is what it was, whatever the other
    files hold. *)
Theorem one_bad_file_stops_the_run (w : world) (h : host) (mode : str)
    (categories : CategoryMap) (f : entry) :
  config w = ConfigOk categories ->
  f ∈ input_files w ->
  raises categories f ->
  exists e, exit (merge_estimates w h mode) = ExitRaised e
            /\ e <> ResizeError
            /\ master (after (merge_estimates w h mode)) = master w.
Proof.
  intros Hc Hin Hraise.
  destruct (process_files_raises categories _ f (LoopState [] 0 0) [] Hin Hraise)
    as (st' & out' & e & Hrun & He).
  exists e. rewrite exit_of_run, Hc, Hrun.
  rewrite bool_decide_eq_false_2 by (intros H0; rewrite H0 in Hin; inversion Hin).
  repeat split; [exact He|].
  apply merge_estimates_keeps. unfold new_data. now rewrite Hc, Hrun.
Qed.

Lemma one_bad_file_stops_the_run_witness :
  exists e, exit (merge_estimates pipes_world sample_host (lit "append")) = ExitRaised e
            /\ e <> ResizeError
            /\ master (after (merge_estimates pipes_world sample_host (lit "append")))
               = master pipes_world.
Proof.
  apply (one_bad_file_stops_the_run pipes_world sample_host (lit "append")
           sample_categories pipes_file).
  - reflexivity.
  - change (input_files pipes_world) with [electrical_bid; pipes_file].
    right. left.
  - right. eexists _, ValueError. split; [reflexivity | vm_compute; reflexivity].
Defined.

Lemma process_files_out_irrelevant categories files st out out' :
  (process_files categories files st out).1.1
  = (process_files categories files st out').1.1
  /\ (process_files categories files st out).2
     = (process_files categories files st out').2.
Proof.
  revert st out out'; induction files as [|f files IH]; intros st out out'; simpl.
  - split; reflexivity.
  - destruct (content f) as [df|]; [|split; reflexivity].
    destruct (returned _) as [[t|]|e]; [apply IH | apply IH | split; reflexivity].
Qed.

Lemma process_files_skip categories l1 f l2 st out :
  rejected categories f ->
  (process_files categories (l1 ++ f :: l2) st out).1.1
  = (process_files categories (l1 ++ l2) st out).1.1
  /\ (process_files categories (l1 ++ f :: l2) st out).2
     = (process_files categories (l1 ++ l2) st out).2.
Proof.
  intros (df & Hc & Hr). revert st out; induction l1 as [|f0 l1 IH]; intros st out; simpl.
  - rewrite Hc, Hr. apply process_files_out_irrelevant.
  - destruct (content f0) as [df0|]; [|split; reflexivity].
    destruct (returned (clean_dataframe df0 _ _)) as [[t|]|e];
      [apply IH | apply IH | split; reflexivity].
Qed.

Lemma new_data_skip categories l1 f l2 m :
  rejected categories f ->
  new_data (World (ConfigOk categories) (Some (l1 ++ f :: l2)) m)
  = new_data (World (ConfigOk categories) (Some (l1 ++ l2)) m).
Proof.
  intros Hrej. unfold new_data, input_files. simpl.
  rewrite !filter_app, filter_cons.
  destruct (decide (is_input_file f)); [|reflexivity].
  destruct (process_files_skip categories
              (filter (fun f => is_input_file f) l1) f
              (filter (fun f => is_input_file f) l2)
              (LoopState [] 0 0) [] Hrej) as [H1 H2].
  destruct (process_files categories (_ ++ f :: _) _ _) as [[st1 o1] e1].
  destruct (process_files categories (_ ++ _) _ _) as [[st2 o2] e2].
  simpl in H1, H2. subst st2 e2. reflexivity.
Qed.

(** X16: a file without the two columns counts for nothing: with it or
    without it in the input folder, at any place, the run leaves the same
    master file. *)
Theorem rejected_file_changes_nothing (categories : CategoryMap)
    (l1 l2 : list entry) (f : entry) (m : option table) (h : host) (mode : str) :
  rejected categories f ->
  master (after (merge_estimates
            (World (ConfigOk categories) (Some (l1 ++ f :: l2)) m) h mode))
  = master (after (merge_estimates
              (World (ConfigOk categories) (Some (l1 ++ l2)) m) h mode)).
Proof.
  intros Hrej. pose proof (new_data_skip categories l1 f l2 m Hrej) as Hnd.
  destruct (new_data (World (ConfigOk categories) (Some (l1 ++ l2)) m))
    as [nd|] eqn:Hnd2.
  - now rewrite (merge_estimates_writes _ h mode nd Hnd),
                (merge_estimates_writes _ h mode nd Hnd2).
  - now rewrite (merge_estimates_keeps _ h mode Hnd),
                (merge_estimates_keeps _ h mode Hnd2).
Qed.

Lemma rejected_file_changes_nothing_witness :
  master (after (merge_estimates
            (World (ConfigOk sample_categories) (Some ([electrical_bid] ++ notes_file :: []))
                   None) sample_host (lit "overwrite")))
  = Some [wire (Finite 5629499534213120 (-52)) (lit "ElectricalBid.csv")].
Proof.
  rewrite (rejected_file_changes_nothing sample_categories [electrical_bid] []
             notes_file None sample_host (lit "overwrite")).
  - vm_compute; reflexivity.
  - eexists. split; [reflexivity | vm_compute; reflexivity].
Defined.

Lemma process_files_returns categories files st out st' out' :
  process_files categories files st out = (st', out', None) ->
  Forall (fun f => exists df o,
            content f = Some df
            /\ returned (clean_dataframe df (fname f)
                           (detect_category (stem (fname f)) categories))
               = Return o) files.
Proof.
  revert st out; induction files as [|f files IH]; intros st out; simpl.
  - constructor.
  - destruct (content f) as [df|] eqn:Hc; [|discriminate].
    destruct (returned _) as [[t|]|e] eqn:Hr; [| |discriminate];
      intros Hrun; (constructor; [eauto | exact (IH _ _ Hrun)]).
Qed.

(** X17: the run gives up on "no valid data" exactly when it has files
    to read and every one of them lacks a required column.  A file that
    has the two columns and no row is valid data: the run goes on and
    writes. *)
Theorem no_valid_data_iff (w : world) (h : host) (mode : str) :
  exit (merge_estimates w h mode) = ExitNoValidData
  <-> exists categories,
        config w = ConfigOk categories
        /\ input_files w <> []
        /\ Forall (rejected categories) (input_files w).
Proof.
  rewrite exit_of_run. split.
  - destruct (config w) as [| |categories]; [discriminate..|].
    case_bool_decide as Hfiles; [discriminate|].
    destruct (process_files _ _ _ _) as [[st out] [e|]] eqn:Hrun; [discriminate|].
    case_bool_decide as Hcd; [|destruct (resize_ok h); discriminate].
    intros _. exists categories. split; [reflexivity|]. split; [exact Hfiles|].
    pose proof (process_files_order _ _ _ _ _ _ Hrun) as Hord.
    rewrite Hcd in Hord. simpl in Hord.
    pose proof (process_files_returns _ _ _ _ _ _ Hrun) as Hret.
    apply Forall_forall. intros f Hf.
    rewrite Forall_forall in Hret. destruct (Hret f Hf) as (df & o & Hc & Hr).
    exists df. split; [exact Hc|]. destruct o as [t|]; [|exact Hr].
    assert (Hin : t ∈ omap (cleaned_table categories) (input_files w)).
    { apply list_elem_of_omap. exists f. split; [exact Hf|].
      unfold cleaned_table. now rewrite Hc, Hr. }
    rewrite <- Hord in Hin. inversion Hin.
  - intros (categories & -> & Hfiles & Hall).
    rewrite (bool_decide_eq_false_2 _ Hfiles).
    destruct (process_files_rejected categories _ (LoopState [] 0 0) [] Hall)
      as [out' ->].
    reflexivity.
Qed.

Lemma header_only_file_is_valid_data :
  exit (merge_estimates
          (World (ConfigOk sample_categories) (Some [header_only_file])
                 (Some repeated_master)) sample_host (lit "overwrite"))
  = ExitDone
  /\ master (after (merge_estimates
          (World (ConfigOk sample_categories) (Some [header_only_file])
                 (Some repeated_master)) sample_host (lit "overwrite")))
     = Some [].
Proof. split; vm_compute; reflexivity. Qed.

(** ** Append mode, further *)

Lemma drop_duplicates_from_filter {A K : Type} `{EqDecision K}
    (f : A -> K) (extra seen1 seen2 : list K) rows :
  (forall k, k ∈ seen2 <-> k ∈ seen1 \/ k ∈ extra) ->
  drop_duplicates_from f seen2 rows
  = drop_duplicates_from f seen1 (filter (fun r => f r ∉ extra) rows).
Proof.
  revert seen1 seen2; induction rows as [|r rows IH]; intros seen1 seen2 Hseen;
    [reflexivity|].
  rewrite filter_cons. simpl. destruct (decide (f r ∉ extra)) as [Hr | Hr].
  - simpl. destruct (decide (f r ∈ seen1)) as [H1 | H1].
    + rewrite !bool_decide_eq_true_2 by (try apply Hseen; auto).
      now apply IH.
    + rewrite !bool_decide_eq_false_2 by (try rewrite Hseen; tauto).
      f_equal. apply IH. intros k. rewrite !elem_of_cons, Hseen. tauto.
  - apply dec_stable in Hr.
    rewrite bool_decide_eq_true_2 by (apply Hseen; auto).
    now apply IH.
Qed.

(** X19: over a master file without repeated keys an append run keeps
    every existing row, unchanged and in place, and adds behind them the
    rows of the new data whose key the master file did not have, the
    first of each key, in their order. *)
Theorem append_extends_master (w : world) (h : host) (mode : str)
    (existing nd : table) :
  Text.lower mode = lit "append" ->
  master w = Some existing ->
  new_data w = Some nd ->
  NoDup (key <$> existing) ->
  master (after (merge_estimates w h mode))
  = Some (existing
          ++ drop_duplicates key (filter (fun r => key r ∉ key <$> existing) nd)).
Proof.
  intros Hm He Hnd Huniq.
  rewrite (merge_estimates_writes w h mode nd Hnd), He. unfold combined.
  rewrite Hm, bool_decide_eq_true_2 by reflexivity. simpl. do 2 f_equal.
  rewrite deduplicate_by_key. unfold drop_duplicates.
  rewrite drop_duplicates_from_app.
  rewrite (drop_duplicates_from_id key [] existing Huniq)
    by (intros k _; apply not_elem_of_nil).
  f_equal. apply drop_duplicates_from_filter.
  intros k. rewrite app_nil_r, elem_of_nil.
  rewrite list_elem_of_In, <- in_rev, <- list_elem_of_In. tauto.
Qed.

Lemma append_extends_master_witness :
  master (after (merge_estimates
    (World (ConfigOk sample_categories) (Some [electrical_bid; valves_file])
           (Some [wire (Finite 1 0) (lit "old.csv")]))
    sample_host (lit "append")))
  = Some [wire (Finite 1 0) (lit "old.csv"); gate_valve].
Proof.
  rewrite (append_extends_master
    (World (ConfigOk sample_categories) (Some [electrical_bid; valves_file])
           (Some [wire (Finite 1 0) (lit "old.csv")]))
    sample_host (lit "append")
    [wire (Finite 1 0) (lit "old.csv")]
    [wire (Finite 5629499534213120 (-52)) (lit "ElectricalBid.csv");
     wire (Finite 5854679515581645 (-52)) (lit "ElectricalBid.csv");
     gate_valve;
     Row (VText (lit "Plumbing"))
         (VText (lit "GATE" ++ ["160"%char] ++ lit " VALVE"))
         (Finite 6333186975989760 (-47)) (lit "pipe_valves.csv")]).
  - vm_compute; reflexivity.
  - reflexivity.
  - reflexivity.
  - vm_compute; reflexivity.
  - simpl. apply NoDup_singleton.
Defined.

(** ** The entry point *)

(** X20: at the prompt only the answer 1, white space around it aside,
    rebuilds the master file; any other answer (2, nothing, a word) runs
    append mode: an existing row whose category and description are texts
    is still there when the run has written, itself or an earlier row of
    its category with the same normalized description. *)
Theorem other_answers_append (w : world) (h : host) (typed : str)
    (existing nd : table) :
  Text.strip typed <> lit "1" ->
  master w = Some existing ->
  new_data w = Some nd ->
  exists t,
    master (after (main w h typed).2) = Some t
    /\ (forall r c d, r ∈ existing ->
          category r = VText c -> description r = VText d ->
          exists r', r' ∈ t /\ r' ∈ existing /\ category r' = VText c
                     /\ normalized r' = VText (Text.collapse_spaces (Text.lower d)))
    /\ (main w h typed).1 = prompt_lines
    /\ choose_mode typed = lit "append".
Proof.
  intros Hans He Hnd. unfold main, choose_mode. simpl.
  rewrite (bool_decide_eq_false_2 _ Hans).
  rewrite (merge_estimates_writes w h _ nd Hnd), He. simpl.
  eexists. split; [reflexivity|]. split; [|split; reflexivity].
  intros r c d Hr Hc Hd.
  pose proof (deduplicate_group (existing ++ nd) (key r)) as Hg.
  rewrite filter_app in Hg.
  destruct (filter (fun r0 => key r0 = key r) existing) as [|r' l] eqn:Hf.
  { assert (Hin : r ∈ filter (fun r0 => key r0 = key r) existing)
      by (apply list_elem_of_filter; split; [reflexivity | exact Hr]).
    rewrite Hf in Hin. inversion Hin. }
  simpl in Hg.
  assert (Hin' : r' ∈ filter (fun r0 => key r0 = key r) existing) by (rewrite Hf; left).
  apply list_elem_of_filter in Hin' as [Hk Hin'].
  assert (Hw : r' ∈ filter (fun r0 => key r0 = key r) (deduplicate (existing ++ nd)))
    by (rewrite Hg; left).
  apply list_elem_of_filter in Hw as [_ Hw].
  exists r'. split; [exact Hw|]. split; [exact Hin'|].
  unfold key in Hk. injection Hk as Hkc Hkn.
  split; [now rewrite Hkc|]. rewrite Hkn. unfold normalized. now rewrite Hd.
Qed.

Lemma other_answers_append_witness :
  exists t,
    master (after (main repeated_world sample_host (lit " 2")).2) = Some t
    /\ exists r', r' ∈ t /\ r' ∈ repeated_master
                  /\ normalized r' = VText (lit "12awg wire").
Proof.
  destruct (other_answers_append repeated_world sample_host (lit " 2") repeated_master
    [wire (Finite 5629499534213120 (-52)) (lit "ElectricalBid.csv");
     wire (Finite 5854679515581645 (-52)) (lit "ElectricalBid.csv")])
    as (t & Ht & Hk & _).
  - vm_compute. discriminate.
  - reflexivity.
  - vm_compute; reflexivity.
  - exists t. split; [exact Ht|].
    destruct (Hk (wire (Finite 2 0) (lit "older.csv")) (lit "Electrical")
                 (lit "12AWG wire")) as (r' & H1 & H2 & _ & H4).
    + right. left.
    + reflexivity.
    + reflexivity.
    + exists r'. repeat split; assumption.
Defined.

(** The answer is stripped as Python strips it: a no-break space after
    the 1 goes, a letter does not. *)
Example choose_mode_examples :
  choose_mode (lit " 1" ++ ["160"; "010"]%char) = lit "overwrite"
  /\ choose_mode (lit "1.") = lit "append"
  /\ choose_mode [] = lit "append"
  /\ choose_mode (lit "overwrite") = lit "append".
Proof. repeat split; vm_compute; reflexivity. Qed.

(** ** Column widths *)

Lemma foldr_max_bounds (l : list nat) :
  (forall n, n ∈ l -> (n <= foldr Nat.max 0 l)%nat)
  /\ (foldr Nat.max 0%nat l = 0%nat \/ foldr Nat.max 0%nat l ∈ l).
Proof.
  induction l as [|a l [IH1 IH2]]; simpl.
  - split; [intros n Hn; inversion Hn | now left].
  - split.
    + intros n [-> | Hn]%elem_of_cons; [lia|]. specialize (IH1 n Hn). lia.
    + destruct (Nat.max_spec a (foldr Nat.max 0%nat l)) as [[_ ->] | [_ ->]].
      * destruct IH2 as [-> | IH2]; [now left | right; now right].
      * right. left.
Qed.

(** X21: the width given to a column is 2 more than the longest text of
    its cells that count, so every such cell fits with 2 to spare; a cell
    that is empty, or holds the number 0, counts for nothing, and a column
    of such cells only gets the width 2. *)
Theorem column_width_fits (first : sheet_value) (others : list sheet_value) :
  (forall v, v ∈ first :: others -> truthy v = true ->
             (length (py_str v) + 2 <= column_width first others)%nat)
  /\ (column_width first others = 2%nat
      \/ exists v, v ∈ first :: others /\ truthy v = true
                   /\ column_width first others = (length (py_str v) + 2)%nat)
  /\ ((forall v, v ∈ first :: others -> truthy v = false) ->
      column_width first others = 2%nat).
Proof.
  unfold column_width.
  set (len := fun v => if truthy v then length (py_str v) else 0%nat).
  destruct (foldr_max_bounds (len <$> first :: others)) as [Hub Hatt].
  split; [|split].
  - intros v Hv Ht.
    assert (Hin : len v ∈ len <$> first :: others) by now apply list_elem_of_fmap_2.
    specialize (Hub _ Hin). unfold len in Hub at 1. rewrite Ht in Hub. lia.
  - destruct Hatt as [-> | Hatt]; [now left|].
    apply list_elem_of_fmap in Hatt as (v & Hv & Hin).
    destruct (truthy v) eqn:Ht.
    + right. exists v. split; [exact Hin|]. split; [exact Ht|].
      rewrite Hv. unfold len. now rewrite Ht.
    + left. rewrite Hv. unfold len. now rewrite Ht.
  - intros Hall. destruct Hatt as [-> | Hatt]; [reflexivity|].
    apply list_elem_of_fmap in Hatt as (v & Hv & Hin).
    rewrite Hv. unfold len. now rewrite (Hall v Hin).
Qed.

Lemma column_width_fits_witness :
  (length (py_str (SFloat false (lit "1250.75"))) + 2
   <= column_width (SText (lit "cost")) [SFloat false (lit "1250.75"); SInt 0; SNone])%nat.
Proof.
  apply (proj1 (column_width_fits (SText (lit "cost"))
                  [SFloat false (lit "1250.75"); SInt 0; SNone])).
  - right. left.
  - reflexivity.
Defined.

(** ** The summary *)






(** ** Labels and the viewer *)

Lemma relabelled_same (df df' : frame raw) :
  Forall2 (fun c c' : str * list raw =>
             final_label c.1 = final_label c'.1 /\ c.2 = c'.2) df df' ->
  relabelled df = relabelled df'.
Proof.
  unfold relabelled, rename_labels.
  induction 1 as [|[l col] [l' col'] df df' [Hl Hcol] _ IH]; csimpl; [reflexivity|].
  simpl in Hl, Hcol. now rewrite Hl, Hcol, IH.
Qed.

(** X23: the labels of a frame count only after they are stripped and
    lowercased, with [item description] standing for [description]: two
    frames with the same columns under labels that agree that way are
    cleaned alike, in what is returned and in what is printed. *)
Theorem column_labels_insensitive (df df' : frame raw) (source cat : str) :
  Forall2 (fun c c' : str * list raw =>
             final_label c.1 = final_label c'.1 /\ c.2 = c'.2) df df' ->
  clean_dataframe df source cat = clean_dataframe df' source cat.
Proof.
  intros Hsame. apply relabelled_same in Hsame.
  unfold clean_dataframe. cbv zeta. rewrite !relabel_steps, Hsame. reflexivity.
Qed.

Lemma column_labels_insensitive_witness :
  returned (clean_dataframe
              [(lit "  ITEM Description", [RStr (lit "bolt")]);
               (lit "Unit Cost ", [RStr (lit "3")])] (lit "f.csv") (lit "Unknown"))
  = Return (Some [Row (VText (lit "Unknown")) (VText (lit "bolt")) (Finite 6755399441055744 (-51))
                      (lit "f.csv")]).
Proof.
  rewrite (column_labels_insensitive _
             [(lit "description", [RStr (lit "bolt")]);
              (lit "unit cost", [RStr (lit "3")])]).
  - vm_compute; reflexivity.
  - repeat constructor.
Defined.



Lemma integer_cost_read_exactly_witness :
  clean_cost (RInt (-1250)) = Some (Finite 5497558138880000 (-42))
  /\ 5497558138880000 = 1250 * 2 ^ 42.
Proof.
  destruct (integer_cost_read_exactly (-1250)) as (H1 & _ & H3).
  split; [rewrite H1; vm_compute; reflexivity | reflexivity].
Defined.
